(** * CountdownTimer (tts_countdown.py): the timing and announcement core

    A shallow embedding of [CountdownTimer.start], [_run_countdown],
    [_speak_count], [_speak_final] and [stop], and of what surrounds them:
    [_initialize_tts], the context manager and [main].

    Time.  [datetime] values have microsecond resolution, so a [datetime] is
    an integer number of microseconds on the local time line and a
    [timedelta] is a difference of two of them.  [td.total_seconds()] is that
    number divided by 10^6, [int(...)] truncates toward zero, and
    [now.microsecond] is the position inside the current wall-clock second.
    Seconds-valued floats of the source ([time_to_next], [sleep_time]) are
    carried as exact microsecond counts.  The loop is modelled with the
    truncation of the exact quotient at line 130, [new_count]; the double
    of the source is modelled beside it, [new_count_float], and the two
    agree when less than 2^34 seconds (544 years) remain.

    Environment.  The loop runs in its own thread.  What it observes from
    outside is (a) the clock at lines 111 and 130, (b) the shared flag
    [_running], which [stop] may clear from another thread between any two
    statements, and (c) whether a dispatch or a callback raises.  These are
    supplied per iteration by a [tick]; what the loop does to the outside is
    recorded as a list of [event]s. *)

From Stdlib Require Import Ascii String.
From Stdlib Require QArith.
From Stdlib Require Import ZArith List Permutation Bool Lia.
Import ListNotations.
Local Open Scope Z_scope.

(** ** Data model *)

Definition usec : Z := 1000000.

(** The exceptions [start] and [stop] raise. *)
Inductive error : Type :=
| RuntimeError   (* "Countdown already running"; "cannot join current thread" *)
| ValueError     (* "Countdown duration must be positive" *)
| OverflowError. (* line 96: the end time is past what datetime can hold *)

(** Identity of a caller-supplied callback (its behaviour is part of the
    environment). *)
Definition callback : Type := nat.

(** The instance fields of [CountdownTimer] set in [__init__] (the TTS engine
    and its lock are constant and left out). *)
Record timer : Type := mkTimer {
  _running : bool;
  _current_count : Z;
  _start_time : option Z;
  _end_time : option Z;
  _count_thread : bool;            (* a thread handle is stored *)
  _callback : option callback
}.

(** [__init__] *)
Definition init : timer :=
  {| _running := false; _current_count := 0; _start_time := None;
     _end_time := None; _count_thread := false; _callback := None |}.

(** What the engine does to the outside world, in program order. *)
Inductive event : Type :=
| EvSetCount (n : Z)      (* self._current_count = n *)
| EvSpeakCount (n : Z)    (* self._speak_count(n): speech thread dispatched *)
| EvSpeakFinal            (* self._speak_final() *)
| EvCallback (n : Z)      (* self._callback(n) *)
| EvSleep (d : Z)         (* time.sleep(d), d in microseconds *)
| EvSpawnLoop             (* self._count_thread.start() *)
| EvStopWrite             (* line 166 in another thread: _running = False *)
| EvStopReturn.           (* that call of stop() has returned (line 169) *)

(** The utterance a dispatched speech thread hands to the engine, once it
    holds the lock: [_speak_count] says [str(count)] only when [count > 0]. *)
Inductive utterance : Type :=
| SayCount (n : Z)
| SayComplete.

Definition spoken (e : event) : option utterance :=
  match e with
  | EvSpeakCount n => if 0 <? n then Some (SayCount n) else None
  | EvSpeakFinal => Some SayComplete
  | _ => None
  end.

Definition is_running (t : timer) : bool := _running t.
Definition current_count (t : timer) : Z := _current_count t.

(** ** start *)

Definition set_started (t : timer) (seconds : Z) (cb : option callback)
    (now : Z) : timer :=
  {| _running := true;
     _current_count := seconds;
     _start_time := Some now;
     _end_time := Some (now + seconds * usec);
     _count_thread := true;
     _callback := cb |}.

(** The last instant a [datetime] can hold, 9999-12-31 23:59:59.999999, in
    microseconds after the first, 0001-01-01 00:00:00; and the longest
    [timedelta], 999999999 days 23:59:59.999999, in microseconds. *)
Definition datetime_max : Z := 315537897599999999.
Definition timedelta_max : Z := 86399999999999999999.

(** Line 96 raises OverflowError when [timedelta(seconds=seconds)] or the sum
    is out of range. *)
Definition end_time_overflows (seconds now : Z) : bool :=
  (timedelta_max <? seconds * usec) || (datetime_max <? now + seconds * usec).

(** The engine when line 96 has raised: lines 92-95 have run. *)
Definition set_overflowed (t : timer) (seconds : Z) (cb : option callback)
    (now : Z) : timer :=
  {| _running := true;
     _current_count := seconds;
     _start_time := Some now;
     _end_time := _end_time t;
     _count_thread := _count_thread t;
     _callback := cb |}.

(** [start(seconds, callback, start_immediately)]; [now] is what
    [datetime.now()] returns at line 95.  The result is the engine after the
    call, what the call did, and the exception it raised, if any.  The loop
    itself is not run here: the thread is started and [start] returns. *)
Definition start (t : timer) (seconds : Z) (cb : option callback)
    (start_immediately : bool) (now : Z)
    : timer * list event * option error :=
  if _running t then (t, [], Some RuntimeError)
  else if seconds <=? 0 then (t, [], Some ValueError)
  else if end_time_overflows seconds now then
    (set_overflowed t seconds cb now, [], Some OverflowError)
  else
    let t' := set_started t seconds cb now in
    (t',
     (if start_immediately then [EvSpeakCount (_current_count t')] else [])
       ++ [EvSpawnLoop],
     None).

(** ** stop *)

(** Line 166 alone: the write another thread performs on the shared flag. *)
Definition stop_write (t : timer) : timer :=
  {| _running := false;
     _current_count := _current_count t;
     _start_time := _start_time t;
     _end_time := _end_time t;
     _count_thread := _count_thread t;
     _callback := _callback t |}.

(** The thread a call is made on. *)
Inductive caller : Type :=
| Outside        (* any thread but the loop's *)
| OnLoopThread.  (* the loop's own thread: from inside the callback *)

Definition clear_thread (t : timer) : timer :=
  {| _running := _running t;
     _current_count := _current_count t;
     _start_time := _start_time t;
     _end_time := _end_time t;
     _count_thread := false;
     _callback := _callback t |}.

(** [stop()], lines 166-169.  The join returns when the loop's thread has
    ended or after its timeout of one second; either way the handle is then
    cleared.  On the loop's own thread the join raises RuntimeError ("cannot
    join current thread") and line 169 is not reached. *)
Definition stop (who : caller) (t : timer) : timer * option error :=
  let t1 := stop_write t in
  if _count_thread t1 then
    match who with
    | Outside => (clear_thread t1, None)
    | OnLoopThread => (t1, Some RuntimeError)
    end
  else (clear_thread t1, None).

(** ** The environment of one run of the loop *)

(** Where, inside one pass of the loop body, a concurrent [stop] performs its
    write.  A write after line 135 is a write before the next test. *)
Inductive stop_point : Type :=
| BeforeTest     (* before the read of _running at line 110 *)
| InSleep        (* after that read, before the read at line 126 *)
| AfterCheck     (* after the read at line 126, before line 130 *)
| AfterSpeak.    (* between lines 133 and 134 *)

Definition stop_point_eqb (p q : stop_point) : bool :=
  match p, q with
  | BeforeTest, BeforeTest | InSleep, InSleep
  | AfterCheck, AfterCheck | AfterSpeak, AfterSpeak => true
  | _, _ => false
  end.

(** One pass through the loop body as the environment shapes it. *)
Record tick : Type := mkTick {
  tk_stop : option stop_point;
  now_top : Z;          (* datetime.now() at line 111 *)
  now_wake : Z;         (* datetime.now() at line 130 *)
  speak_ok : bool;      (* line 133 returns normally *)
  callback_ok : bool    (* line 135 returns normally *)
}.

(** The same for the block after the loop (lines 138-141). *)
Inductive final_point : Type :=
| BeforeFinalTest    (* before the read of _running at line 138 *)
| AfterFinalTest     (* after it, before line 139 *)
| AfterFinalSpeak.   (* between lines 139 and 140 *)

Definition final_point_eqb (p q : final_point) : bool :=
  match p, q with
  | BeforeFinalTest, BeforeFinalTest | AfterFinalTest, AfterFinalTest
  | AfterFinalSpeak, AfterFinalSpeak => true
  | _, _ => false
  end.

Record closing : Type := mkClosing {
  cl_stop : option final_point;
  cl_speak_ok : bool;
  cl_callback_ok : bool
}.

(** How a block of statements ends. *)
Inductive control : Type :=
| Continue   (* falls through to the next test of the while *)
| Break      (* leaves the while *)
| Raise.     (* an exception is propagating *)

(** How the thread stands when its schedule has been used up. *)
Inductive status : Type :=
| Returned   (* _run_countdown returned *)
| Raised     (* it ended with an exception, after the finally clause *)
| Pending.   (* still inside the while: the schedule was too short *)

(** ** _run_countdown *)

Definition set_count (t : timer) (n : Z) : timer :=
  {| _running := _running t;
     _current_count := n;
     _start_time := _start_time t;
     _end_time := _end_time t;
     _count_thread := _count_thread t;
     _callback := _callback t |}.

(** The concurrent write, if this is where it lands. *)
Definition land (here : bool) (t : timer) : timer * list event :=
  if here then (stop_write t, [EvStopWrite]) else (t, []).

Definition lands (p : stop_point) (k : tick) : bool :=
  match tk_stop k with Some q => stop_point_eqb p q | None => false end.

Definition lands_final (p : final_point) (c : closing) : bool :=
  match cl_stop c with Some q => final_point_eqb p q | None => false end.

(** [now.microsecond] *)
Definition microsecond (now : Z) : Z := now mod usec.

(** Line 119, in microseconds. *)
Definition time_until_next_second (now : Z) : Z := usec - microsecond now.

(** Line 120 *)
Definition sleep_time (end_time now : Z) : Z :=
  Z.min (time_until_next_second now) (end_time - now).

(** Line 130: [int((end_time - now).total_seconds()) + 1]; [int] truncates
    toward zero.  This is the count for a remaining time of less than 2^34
    seconds in magnitude, where the double of [total_seconds()] does not
    reach the next whole second; [new_count_float] is the count at any
    remaining time. *)
Definition new_count (end_time now : Z) : Z :=
  Z.quot (end_time - now) usec + 1.

(** The condition of the while at line 110. *)
Definition loop_test (t : timer) : bool :=
  _running t && (0 <? _current_count t).

(** Lines 131-135, entered with the recomputed count [n]. *)
Definition update_count (k : tick) (n : Z) (t : timer)
    : timer * list event * control :=
  if n <? _current_count t then
    let t1 := set_count t n in
    if speak_ok k then
      let '(t2, ev) := land (lands AfterSpeak k) t1 in
      match _callback t2 with
      | Some _ =>
          (t2, [EvSetCount n; EvSpeakCount n] ++ ev ++ [EvCallback n],
           if callback_ok k then Continue else Raise)
      | None => (t2, [EvSetCount n; EvSpeakCount n] ++ ev, Continue)
      end
    else (t1, [EvSetCount n], Raise)
  else (t, [], Continue).

(** Lines 111-135: one pass of the body, entered after the test passed. *)
Definition iteration (k : tick) (t : timer) : timer * list event * control :=
  match _end_time t with
  | None => (t, [], Raise)            (* None - datetime: TypeError *)
  | Some e =>
      let time_to_next := e - now_top k in
      if time_to_next <=? 0 then
        (set_count t 0, [EvSetCount 0], Break)
      else
        let d := sleep_time e (now_top k) in
        let ev_sleep := if 0 <? d then [EvSleep d] else [] in
        let '(t1, ev1) := land (lands InSleep k) t in
        if negb (_running t1) then (t1, ev_sleep ++ ev1, Break)
        else
          let '(t2, ev2) := land (lands AfterCheck k) t1 in
          let '(t3, ev3, c) := update_count k (new_count e (now_wake k)) t2 in
          (t3, ev_sleep ++ ev1 ++ ev2 ++ ev3, c)
  end.

(** The while statement, lines 110-135. *)
Fixpoint while_loop (sched : list tick) (t : timer)
    : timer * list event * status :=
  match sched with
  | [] => (t, [], if loop_test t then Pending else Returned)
  | k :: rest =>
      let '(t0, ev0) := land (lands BeforeTest k) t in
      if loop_test t0 then
        match iteration k t0 with
        | (t1, ev1, Continue) =>
            let '(t2, ev2, s) := while_loop rest t1 in
            (t2, ev0 ++ ev1 ++ ev2, s)
        | (t1, ev1, Break) => (t1, ev0 ++ ev1, Returned)
        | (t1, ev1, Raise) => (t1, ev0 ++ ev1, Raised)
        end
      else (t0, ev0, Returned)
  end.

(** Lines 137-141, the final announcement. *)
Definition final_block (c : closing) (t : timer)
    : timer * list event * status :=
  let '(t0, ev0) := land (lands_final BeforeFinalTest c) t in
  if (_current_count t0 =? 0) && _running t0 then
    let '(t1, ev1) := land (lands_final AfterFinalTest c) t0 in
    if cl_speak_ok c then
      let '(t2, ev2) := land (lands_final AfterFinalSpeak c) t1 in
      match _callback t2 with
      | Some _ =>
          (t2, ev0 ++ ev1 ++ [EvSpeakFinal] ++ ev2 ++ [EvCallback 0],
           if cl_callback_ok c then Returned else Raised)
      | None => (t2, ev0 ++ ev1 ++ [EvSpeakFinal] ++ ev2, Returned)
      end
    else (t1, ev0 ++ ev1, Raised)
  else (t0, ev0, Returned).

(** The body of the try, lines 110-141. *)
Definition try_body (sched : list tick) (c : closing) (t : timer)
    : timer * list event * status :=
  match while_loop sched t with
  | (t1, ev1, Returned) =>
      let '(t2, ev2, s) := final_block c t1 in (t2, ev1 ++ ev2, s)
  | r => r
  end.

(** [_run_countdown]: the try with its finally clause (line 143), which runs
    on every way out of the body. *)
Definition _run_countdown (sched : list tick) (c : closing) (t : timer)
    : timer * list event * status :=
  match try_body sched c t with
  | (t1, ev, Pending) => (t1, ev, Pending)
  | (t1, ev, s) => (stop_write t1, ev, s)
  end.

(** ** Reading a trace *)

Definition set_counts (tr : list event) : list Z :=
  flat_map (fun e => match e with EvSetCount n => [n] | _ => [] end) tr.

Definition callbacks (tr : list event) : list Z :=
  flat_map (fun e => match e with EvCallback n => [n] | _ => [] end) tr.

(** The utterances handed to speech threads, in the order of dispatch. *)
Definition utterances (tr : list event) : list utterance :=
  flat_map (fun e => match spoken e with Some u => [u] | None => [] end) tr.

Definition sleeps (tr : list event) : list Z :=
  flat_map (fun e => match e with EvSleep d => [d] | _ => [] end) tr.

Definition is_final (e : event) : bool :=
  match e with EvSpeakFinal => true | _ => false end.

Definition is_callback0 (e : event) : bool :=
  match e with EvCallback n => n =? 0 | _ => false end.

(** An announcement dispatch or an observer call. *)
Definition is_delivery (e : event) : bool :=
  match e with
  | EvSpeakCount _ | EvSpeakFinal | EvCallback _ => true
  | _ => false
  end.

Definition is_stop_write (e : event) : bool :=
  match e with EvStopWrite => true | _ => false end.

(** What follows the first concurrent write to [_running]. *)
Fixpoint after_stop (tr : list event) : list event :=
  match tr with
  | [] => []
  | e :: rest => if is_stop_write e then rest else after_stop rest
  end.

Definition count_of (p : event -> bool) (tr : list event) : nat :=
  length (filter p tr).


(** Schedules and closings with no stop and no exception. *)
Definition quiet (k : tick) : Prop :=
  tk_stop k = None /\ speak_ok k = true /\ callback_ok k = true.

Definition calm : closing :=
  {| cl_stop := None; cl_speak_ok := true; cl_callback_ok := true |}.

Definition tick_at (a b : Z) : tick :=
  {| tk_stop := None; now_top := a; now_wake := b;
     speak_ok := true; callback_ok := true |}.

Definition events_of {A B : Type} (r : A * list event * B) : list event :=
  snd (fst r).

Definition timer_of {A B : Type} (r : timer * A * B) : timer :=
  fst (fst r).

Definition status_of {A B : Type} (r : A * B * status) : status :=
  snd r.

(** ** Notions the properties are stated with *)

Definition bounded_sleep (d : Z) : Prop := 0 < d <= usec.

Definition is_announce (e : event) : bool :=
  match e with EvSpeakCount _ | EvSpeakFinal => true | _ => false end.

Definition is_call (e : event) : bool :=
  match e with EvCallback _ => true | _ => false end.

Definition has_stop (tr : list event) : bool := existsb is_stop_write tr.

(** No announcement and no callback. *)
Definition silent (tr : list event) : Prop :=
  Forall (fun e => is_delivery e = false) tr.

(** At most one announcement and one callback after the stop. *)
Definition late_ok (tr : list event) : Prop :=
  (count_of is_announce (after_stop tr) <= 1)%nat /\
  (count_of is_call (after_stop tr) <= 1)%nat.

(** The stop, if any, lands where the next thing the loop does is read
    [_running]. *)
Definition at_poll (k : tick) : Prop :=
  tk_stop k <> Some AfterCheck /\ tk_stop k <> Some AfterSpeak.

Definition at_final_poll (c : closing) : Prop :=
  cl_stop c <> Some AfterFinalTest /\ cl_stop c <> Some AfterFinalSpeak.

(** The test of the while and one pass of its body. *)
Definition pass (k : tick) (t : timer) : timer * list event * control :=
  let '(t0, ev0) := land (lands BeforeTest k) t in
  if loop_test t0 then
    let '(t1, ev1, c) := iteration k t0 in (t1, ev0 ++ ev1, c)
  else (t0, ev0, Break).

(** Each value is smaller than the one before, starting below [c]. *)
Fixpoint decreasing (c : Z) (l : list Z) : Prop :=
  match l with
  | [] => True
  | x :: rest => x < c /\ decreasing x rest
  end.



(** The call of the callback, when there is one (lines 134-135, 140-141). *)
Definition call_events (cb : option callback) (n : Z) : list event :=
  match cb with Some _ => [EvCallback n] | None => [] end.

(** The wake-up of a pass is read less than a second after the end time:
    the recomputed count is at least 1. *)
Definition wakes_in_time (e : Z) (k : tick) : Prop :=
  0 < e - now_top k -> 1 <= new_count e (now_wake k).

(** ** Sample runs *)

(** A run of three seconds whose callback raises at the first boundary. *)
Definition raising_run : timer * list event * status :=
  _run_countdown
    [{| tk_stop := None; now_top := 600; now_wake := 1000530;
        speak_ok := true; callback_ok := false |}]
    calm (set_started init 3 (Some 1%nat) 520).

(** A run of two seconds on an attentive scheduler. *)
Definition two_second_run : timer * list event * status :=
  _run_countdown
    [tick_at 40 1000050; tick_at 1000060 2000050; tick_at 2000060 2000060]
    calm (set_started init 2 (Some 1%nat) 0).

(** A run of two seconds started on a whole second, whose thread reads the
    clock at [wake] after its first sleep. *)
Definition late_wake_run (wake : Z) : timer * list event * status :=
  let '(t, _, _) := start init 2 (Some 1%nat) true 0 in
  _run_countdown [tick_at 0 wake] calm t.

(** A run of three seconds started on a whole second that reads the clock,
    after its first sleep, 2.5 s after the end time. *)
Definition stalled_run : timer * list event * status :=
  _run_countdown [tick_at 0 5500000] calm (set_started init 3 None 0).

(** A run of three seconds in which [stop] writes the flag just after the
    loop has read it at line 126. *)
Definition stop_after_check_run : timer * list event * status :=
  _run_countdown
    [{| tk_stop := Some AfterCheck; now_top := 0; now_wake := 1000050;
        speak_ok := true; callback_ok := true |}]
    calm (set_started init 3 (Some 1%nat) 0).

(** A run of three seconds stopped during its first sleep. *)
Definition stop_in_sleep_run : timer * list event * status :=
  _run_countdown
    [{| tk_stop := Some InSleep; now_top := 0; now_wake := 1000050;
        speak_ok := true; callback_ok := true |}]
    calm (set_started init 3 (Some 1%nat) 0).

(** A run of three seconds started 300 us into a wall-clock second, on a
    scheduler that is never more than 400 us late. *)
Definition jitter_schedule : list tick :=
  [tick_at 500 1000100; tick_at 1000110 2000400; tick_at 2000410 3000100;
   tick_at 3000110 3000380; tick_at 3000390 3000400].

Definition jitter_run : timer * list event * status :=
  _run_countdown jitter_schedule calm (set_started init 3 (Some 1%nat) 300).


(** ** stop(), seen from the loop's trace *)

(** How the join of lines 167-168 ends: the loop's thread has ended, or the
    timeout of one second has run out with the thread still going, after
    [seen] more events of the loop since the write of line 166. *)
Inductive join_result : Type :=
| Joined
| TimedOut (seen : nat).

(** [EvStopReturn] put after [seen] events, or at the end. *)
Fixpoint insert_return (seen : nat) (tr : list event) : list event :=
  match seen, tr with
  | O, _ => EvStopReturn :: tr
  | S n, e :: rest => e :: insert_return n rest
  | S _, [] => [EvStopReturn]
  end.

(** The trace of a run with the return of the first [stop()] marked in it. *)
Fixpoint stop_trace (j : join_result) (tr : list event) : list event :=
  match tr with
  | [] => []
  | e :: rest =>
      if is_stop_write e then
        e :: match j with
             | Joined => rest ++ [EvStopReturn]
             | TimedOut seen => insert_return seen rest
             end
      else e :: stop_trace j rest
  end.

Definition is_stop_return (e : event) : bool :=
  match e with EvStopReturn => true | _ => false end.

(** What follows the return of [stop()]. *)
Fixpoint after_return (tr : list event) : list event :=
  match tr with
  | [] => []
  | e :: rest => if is_stop_return e then rest else after_return rest
  end.

(** The loop does not mark the return of [stop()]: that is the stopper's. *)
Definition unmarked (tr : list event) : Prop :=
  Forall (fun e => is_stop_return e = false) tr.

(** A run of three seconds in which [stop] writes the flag just after the
    loop has read it at line 126: with the return of [stop] marked, after a
    join that timed out before the loop went on. *)
Definition stop_timed_out_trace : list event :=
  stop_trace (TimedOut 0) (events_of stop_after_check_run).

(** ** What is heard *)


(** ** The float at line 130 *)

(** The integer nearest to [a / b], ties to the even one; [b] is positive. *)
Definition round_half_even (a b : Z) : Z :=
  let q := a / b in
  let r := a mod b in
  if 2 * r <? b then q
  else if b <? 2 * r then q + 1
  else if Z.even q then q else q + 1.

(** The power of two at or just below [d] microseconds taken as seconds:
    the floor of the binary logarithm of [d / 10^6], for positive [d]. *)
Definition binade (d : Z) : Z :=
  if usec <=? d then Z.log2 (d / usec)
  else - Z.log2_up ((usec + d - 1) / d).

(** [int(td.total_seconds())] for a timedelta of [d] microseconds, [d]
    positive.  [total_seconds()] is the true division of [d] by 10^6: the
    double nearest to the quotient, that is a 53-bit mantissa times
    2^(binade - 52), the mantissa rounded to nearest, ties to even.  [int]
    drops what is left of a fraction. *)
Definition int_of_seconds_pos (d : Z) : Z :=
  let s := 52 - binade d in
  if 0 <=? s then round_half_even (d * 2 ^ s) usec / 2 ^ s
  else round_half_even d (usec * 2 ^ (- s)) * 2 ^ (- s).

(** [int(td.total_seconds())]: rounding is symmetric and [int] truncates
    toward zero. *)
Definition int_total_seconds (d : Z) : Z :=
  match d with
  | 0 => 0
  | Zpos _ => int_of_seconds_pos d
  | Zneg _ => - int_of_seconds_pos (- d)
  end.

(** Line 130 with its float: [new_count] is this with the exact quotient in
    the place of the double. *)
Definition new_count_float (end_time now : Z) : Z :=
  int_total_seconds (end_time - now) + 1.

(** ** The range in which seconds are exact *)

(** Below 2^34 seconds in magnitude a double is within 2^-20 of the exact
    quotient, less than the microsecond that separates it from the next
    whole number, so [int] of it is the truncated exact quotient and
    [new_count_float] is [new_count]; from 2^34 seconds (544 years) on the
    double can round up to the next whole second. *)
Definition exact_seconds (d : Z) : Prop := Z.abs d < 2 ^ 34 * usec.



(** An end time [datetime] can hold, for a run started at [now]. *)
Definition representable (now seconds : Z) : Prop :=
  0 <= now /\ now + seconds * usec <= datetime_max.

(** ** Clocks and passes *)

(** A clock that does not run backwards and a sleep that does not return
    early: each pass reads the clock no earlier than the previous reading
    [prev], and, when it sleeps, reads it again no earlier than the sleep
    was due. *)
Fixpoint honest (e prev : Z) (sched : list tick) : Prop :=
  match sched with
  | [] => True
  | k :: rest =>
      prev <= now_top k /\
      (0 < e - now_top k ->
       now_top k + sleep_time e (now_top k) <= now_wake k /\
       honest e (now_wake k) rest)
  end.

(** The whole wall-clock seconds that begin after [prev] and no later than
    [e], plus one: the passes that can still sleep. *)
Definition passes_left (e prev : Z) : Z :=
  if e <=? prev then 0 else e / usec - prev / usec + 1.

(** ** _initialize_tts *)

(** A voice as the speech driver lists it, with the two attributes the code
    reads. *)
Module Voice.
Record t : Type := mk { name : string; id : string }.
End Voice.

(** A value handed to [engine.setProperty]. *)
Inductive value : Type :=
| VStr (s : string)
| VInt (n : Z)
| VFloat (q : QArith_base.Q).

(** [str.lower] on one character.  Only the letters A-Z matter to the test
    below: no other character lower-cases to a letter of "female", and in
    UTF-8 no byte of another character equals one. *)
Definition lower_char (c : ascii) : ascii :=
  let n := nat_of_ascii c in
  if ((65 <=? n)%nat && (n <=? 90)%nat)%bool then ascii_of_nat (n + 32)
  else c.

Fixpoint lower (s : string) : string :=
  match s with
  | EmptyString => EmptyString
  | String c rest => String (lower_char c) (lower rest)
  end.

(** [needle in s] on strings. *)
Fixpoint contains (needle s : string) : bool :=
  prefix needle s
  || match s with
     | EmptyString => false
     | String _ rest => contains needle rest
     end.

(** Line 57: ['female' in v.name.lower()] *)
Definition is_female (v : Voice.t) : bool :=
  contains "female" (lower (Voice.name v)).

(** [_initialize_tts].  [driver] is what the speech driver provides: [None]
    when [pyttsx3.init()] raises, else the voices it lists.  The result is
    the calls of [setProperty] made on the engine, in order, or [None] when
    the exception is printed and raised again. *)
Definition _initialize_tts (driver : option (list Voice.t))
    : option (list (string * value)) :=
  match driver with
  | None => None
  | Some voices =>
      let voice_calls :=
        match voices with
        | [] => []
        | first :: _ =>
            match filter is_female voices with
            | f :: _ => [("voice"%string, VStr (Voice.id f))]
            | [] => [("voice"%string, VStr (Voice.id first))]
            end
        end in
      Some (voice_calls
              ++ [("rate"%string, VInt 150);
                  ("volume"%string, VFloat (QArith_base.Qmake 1 1))])
  end.

(** [CountdownTimer()]: [__init__] fails when the engine cannot be set up. *)
Definition CountdownTimer (driver : option (list Voice.t)) : option timer :=
  match _initialize_tts driver with
  | Some _ => Some init
  | None => None
  end.

(** ** The context manager *)

Definition __enter__ (t : timer) : timer := t.

(** [__exit__] calls [stop] and returns [None]: an exception of the body is
    not suppressed.  An exception of [stop] itself replaces it. *)
Definition __exit__ (who : caller) (t : timer)
    : timer * bool * option error :=
  let '(t1, err) := stop who t in (t1, false, err).

(** [with timer: body], run on the thread [who].  The body gives the engine
    it leaves and either a result or an exception. *)
Definition with_timer {A : Type} (who : caller) (t : timer)
    (body : timer -> timer * (error + A)) : timer * (error + A) :=
  let '(t1, r) := body (__enter__ t) in
  match __exit__ who t1 with
  | (t2, _, Some err) => (t2, inl err)
  | (t2, _, None) => (t2, r)
  end.

(** ** main *)

(** What the main thread prints. *)
Inductive output : Type :=
| OutBanner                      (* lines 189-192 *)
| OutInvalidDuration             (* line 202 *)
| OutStarting (duration : Z)     (* line 205 *)
| OutTtsFailed                   (* line 69 *)
| OutInterrupted                 (* line 219 *)
| OutComplete                    (* line 222 *)
| OutError.                      (* line 225 *)

(** Lines 195-203.  [arg] is [sys.argv[1]] if there is one, as [int] reads
    it: [None] inside when [int] raises ValueError. *)
Definition chosen_duration (arg : option (option Z)) : Z * list output :=
  match arg with
  | None => (10, [])
  | Some None => (10, [OutInvalidDuration])
  | Some (Some n) =>
      if n <=? 0 then (10, [OutInvalidDuration]) else (n, [])
  end.

(** How the wait at lines 216-217 ends. *)
Inductive polling : Type :=
| RunEnded             (* is_running was read false *)
| KeyboardInterrupt.   (* raised while polling: caught at line 218 *)

(** The callback [main] passes to [start]. *)
Definition countdown_callback : callback := 0%nat.

(** [main] when no KeyboardInterrupt is raised outside the wait: the exit
    status and what the main thread prints.  [now] is the clock reading
    inside [start].  An exception of [start] leaves the with-block through
    [__exit__] and is caught at line 224. *)
Definition main_uninterrupted (arg : option (option Z))
    (driver : option (list Voice.t)) (now : Z) (p : polling)
    : Z * list output :=
  let '(duration, said) := chosen_duration arg in
  let head := [OutBanner] ++ said ++ [OutStarting duration] in
  match CountdownTimer driver with
  | None => (1, head ++ [OutTtsFailed; OutError])
  | Some timer =>
      match start (__enter__ timer) duration (Some countdown_callback)
              true now with
      | (_, _, Some _) => (1, head ++ [OutError])
      | (_, _, None) =>
          match p with
          | RunEnded => (0, head ++ [OutComplete])
          | KeyboardInterrupt => (0, head ++ [OutInterrupted; OutComplete])
          end
      end
  end.

(** [main].  A KeyboardInterrupt raised anywhere but in the wait is not an
    [Exception]: no handler of [main] catches it, and [main] does not return.
    [stray] is then the number of lines the main thread had printed. *)
Definition main (stray : option nat) (arg : option (option Z))
    (driver : option (list Voice.t)) (now : Z) (p : polling)
    : option Z * list output :=
  let '(status, printed) := main_uninterrupted arg driver now p in
  match stray with
  | None => (Some status, printed)
  | Some n => (None, firstn n printed)
  end.

(** Three voices as a driver might list them. *)
Definition sample_voices : list Voice.t :=
  [Voice.mk "Google UK English Male" "en-GB-m";
   Voice.mk "Google UK English FEMALE" "en-GB-f";
   Voice.mk "Google US English Female" "en-US-f"].

(** * Properties *)

(** ** Tactics *)

Ltac order_hyps :=
  repeat match goal with
  | H : (_ <? _) = true |- _ => apply Z.ltb_lt in H
  | H : (_ <? _) = false |- _ => apply Z.ltb_ge in H
  | H : (_ <=? _) = true |- _ => apply Z.leb_le in H
  | H : (_ <=? _) = false |- _ => apply Z.leb_gt in H
  | H : (_ =? _) = true |- _ => apply Z.eqb_eq in H
  | H : (_ =? _) = false |- _ => apply Z.eqb_neq in H
  end.

Ltac split_pass :=
  repeat match goal with
  | H : (_, _) = (_, _) |- _ => inversion H; subst; clear H
  | H : context [match ?x with _ => _ end] |- _ => destruct x eqn:?
  end.

Ltac case_goal :=
  repeat (cbn;
          match goal with
          | |- context [match ?x with _ => _ end] =>
              lazymatch x with
              | context [match _ with _ => _ end] => fail
              | _ => destruct x eqn:?
              end
          end);
  cbn.

Ltac settle :=
  repeat split; intros;
  try discriminate; try congruence;
  try (unfold at_poll, at_final_poll in *; intuition congruence);
  try (repeat constructor; fail);
  try (unfold late_ok, count_of; cbn; lia).

Arguments new_count : simpl never.
Arguments sleep_time : simpl never.

(** ** Boundary arithmetic *)

Lemma usec_pos : 0 < usec.
Proof. reflexivity. Qed.

Lemma microsecond_range (now : Z) : 0 <= microsecond now < usec.
Proof. unfold microsecond. apply Z.mod_pos_bound, usec_pos. Qed.

Lemma time_until_next_second_range (now : Z) :
  0 < time_until_next_second now <= usec.
Proof.
  unfold time_until_next_second.
  pose proof (microsecond_range now). lia.
Qed.

Lemma sleep_time_range (e now : Z) :
  0 < e - now -> 0 < sleep_time e now <= usec.
Proof.
  intros H. unfold sleep_time.
  pose proof (time_until_next_second_range now). lia.
Qed.

(** Where the sleep of a pass is due. *)
Lemma sleep_due (e now : Z) :
  0 < e - now ->
  now + sleep_time e now = Z.min (usec * (now / usec + 1)) e.
Proof.
  intros Hrem.
  unfold sleep_time, time_until_next_second, microsecond.
  pose proof (Z.div_mod now usec ltac:(discriminate)) as Hdm.
  lia.
Qed.



(** ** The double at line 130 *)

(** Rounding to nearest moves a quotient up by at most a half and never
    below its floor. *)
Lemma round_half_even_bounds (a b : Z) :
  0 < b ->
  a / b <= round_half_even a b /\ 2 * (b * round_half_even a b) <= 2 * a + b.
Proof.
  intros Hb. unfold round_half_even.
  pose proof (Z.div_mod a b ltac:(lia)) as Hdm.
  pose proof (Z.mod_pos_bound a b Hb) as Hm.
  destruct (Z.ltb_spec (2 * (a mod b)) b);
    [| destruct (Z.ltb_spec b (2 * (a mod b)));
       [| destruct (Z.even (a / b))]]; lia.
Qed.

(** Less than 2^34 seconds lie below the 34th binade. *)
Lemma binade_small (d : Z) : 0 < d < 2 ^ 34 * usec -> binade d <= 33.
Proof.
  intros [Hpos Hlt]. unfold binade.
  destruct (Z.leb_spec usec d) as [Hge | _].
  - assert (Hq : 0 < d / usec).
    { apply Z.div_str_pos. split; [exact usec_pos | exact Hge]. }
    assert (Hq' : d / usec < 2 ^ 34).
    { apply Z.div_lt_upper_bound; [exact usec_pos | lia]. }
    apply Z.log2_lt_pow2 in Hq'; [lia | exact Hq].
  - pose proof (Z.log2_up_nonneg ((usec + d - 1) / d)). lia.
Qed.

(** Below 2^34 seconds the double does not reach the next whole second. *)
Lemma int_of_seconds_pos_exact (d : Z) :
  0 < d < 2 ^ 34 * usec -> int_of_seconds_pos d = d / usec.
Proof.
  intros Hd. pose proof (binade_small d Hd) as Hb.
  unfold int_of_seconds_pos.
  set (s := 52 - binade d) in *.
  assert (Hs : 19 <= s) by (unfold s; lia).
  destruct (Z.leb_spec 0 s) as [_ | Hneg]; [| lia].
  assert (Hp : 2 ^ 19 <= 2 ^ s) by (apply Z.pow_le_mono_r; lia).
  change (2 ^ 19) with 524288 in Hp.
  set (w := 2 ^ s) in *.
  destruct (round_half_even_bounds (d * w) usec usec_pos) as [Hlo Hhi].
  set (m := round_half_even (d * w) usec) in *.
  pose proof (Z.div_mod d usec ltac:(discriminate)) as Hdm.
  pose proof (Z.mod_pos_bound d usec usec_pos) as Hm.
  set (q := d / usec) in *.
  assert (Hq : q * w <= (d * w) / usec).
  { apply Z.div_le_lower_bound; [exact usec_pos |]. unfold usec in *. nia. }
  symmetry. apply Z.div_unique with (r := m - q * w).
  - left. split; [lia |]. unfold usec in *. nia.
  - lia.
Qed.

Lemma int_total_seconds_exact (d : Z) :
  exact_seconds d -> int_total_seconds d = Z.quot d usec.
Proof.
  unfold exact_seconds. intros Hd.
  destruct d as [| p | p]; [reflexivity | |].
  - cbn [int_total_seconds].
    rewrite int_of_seconds_pos_exact by lia.
    symmetry. apply Z.quot_div_nonneg; [lia | exact usec_pos].
  - cbn [int_total_seconds].
    rewrite int_of_seconds_pos_exact by lia.
    change (Z.neg p) with (- Z.pos p).
    rewrite Z.quot_opp_l by discriminate.
    rewrite Z.quot_div_nonneg by (try exact usec_pos; lia).
    rewrite Z.opp_involutive. reflexivity.
Qed.

(** The count the source computes with its double is the count of the model
    while less than 2^34 seconds remain. *)
Lemma new_count_float_exact (e now : Z) :
  exact_seconds (e - now) -> new_count_float e now = new_count e now.
Proof.
  intros H. unfold new_count_float, new_count.
  rewrite (int_total_seconds_exact _ H). reflexivity.
Qed.

(** At 2^34 seconds the bound is sharp: with one microsecond less than a
    whole second above them, the double is the next whole second and the
    count of the source is one more than the truncated quotient gives. *)
Lemma new_count_float_rounds_up :
  new_count (2 ^ 34 * usec + 999999) 0 = 17179869185 /\
  new_count_float (2 ^ 34 * usec + 999999) 0 = 17179869186.
Proof. split; vm_compute; reflexivity. Qed.

(** ** start *)

(** An end time in range does not overflow. *)
Lemma representable_no_overflow (now seconds : Z) :
  representable now seconds -> end_time_overflows seconds now = false.
Proof.
  intros [Hnow Hend]. unfold end_time_overflows.
  apply orb_false_iff. split; apply Z.ltb_ge.
  - unfold timedelta_max, datetime_max in *. lia.
  - exact Hend.
Qed.

(** An end time out of range: line 96 raises after lines 92-95. *)
Lemma overflow_start (t : timer) (seconds : Z) (cb : option callback)
    (si : bool) (now : Z) :
  _running t = false -> 0 < seconds ->
  end_time_overflows seconds now = true ->
  start t seconds cb si now
    = (set_overflowed t seconds cb now, [], Some OverflowError).
Proof.
  intros Hrun Hpos Hov. unfold start. rewrite Hrun, Hov.
  destruct (Z.leb_spec seconds 0); [lia | reflexivity].
Qed.

(** An end time in range: lines 92-105 all run. *)
Lemma in_range_start (t : timer) (seconds : Z) (cb : option callback)
    (si : bool) (now : Z) :
  _running t = false -> 0 < seconds -> representable now seconds ->
  start t seconds cb si now
    = (set_started t seconds cb now,
       (if si then [EvSpeakCount seconds] else []) ++ [EvSpawnLoop], None).
Proof.
  intros Hrun Hpos Hrep. unfold start.
  rewrite Hrun, (representable_no_overflow now seconds Hrep).
  destruct (Z.leb_spec seconds 0); [lia | reflexivity].
Qed.

(** C6 does not hold as specified: a duration of 10^12 seconds puts the end
    time past the year 9999, line 96 raises OverflowError, and [start]
    returns neither an announcement nor a thread. *)
Lemma start_overflows :
  start init 1000000000000 None true 0
    = (set_overflowed init 1000000000000 None 0, [], Some OverflowError) /\
  ~ (forall t seconds cb now,
       _running t = false -> 0 < seconds -> 0 <= now <= datetime_max ->
       exists t',
         start t seconds cb true now
           = (t', [EvSpeakCount seconds; EvSpawnLoop], None)).
Proof.
  split; [reflexivity |].
  intros H.
  destruct (H init 1000000000000 None 0 eq_refl eq_refl) as [t' Ht'].
  - split; discriminate.
  - discriminate Ht'.
Qed.

(** C6, as the code has it.  On an engine that is not running, [start] with
    a positive duration whose end time [datetime] can hold (and the default
    [start_immediately]) sets [_running], sets the count to the duration,
    sets the end time to the clock reading plus the duration, stores the
    callback, dispatches the announcement of the initial count (which is
    spoken, the count being positive), starts the loop's thread, and returns
    with no error while the countdown is still running: none of the loop's
    work is done inside the call. *)
Theorem start_effects (t : timer) (seconds : Z) (cb : option callback)
    (now : Z) :
  _running t = false -> 0 < seconds -> representable now seconds ->
  exists t',
    start t seconds cb true now
      = (t', [EvSpeakCount seconds; EvSpawnLoop], None) /\
    is_running t' = true /\
    current_count t' = seconds /\
    _start_time t' = Some now /\
    _end_time t' = Some (now + seconds * usec) /\
    _callback t' = cb /\
    _count_thread t' = true /\
    utterances [EvSpeakCount seconds] = [SayCount seconds] /\
    loop_test t' = true.
Proof.
  intros Hrun Hpos Hrep. exists (set_started t seconds cb now).
  rewrite (in_range_start t seconds cb true now Hrun Hpos Hrep).
  assert (Hlt : (0 <? seconds) = true) by (apply Z.ltb_lt; exact Hpos).
  cbn. unfold loop_test. cbn. rewrite Hlt. repeat split; reflexivity.
Qed.

Lemma start_effects_witness :
  exists t',
    start init 3 (Some 1%nat) true 250
      = (t', [EvSpeakCount 3; EvSpawnLoop], None) /\
    is_running t' = true /\
    current_count t' = 3 /\
    _start_time t' = Some 250 /\
    _end_time t' = Some (250 + 3 * usec) /\
    _callback t' = Some 1%nat /\
    _count_thread t' = true /\
    utterances [EvSpeakCount 3] = [SayCount 3] /\
    loop_test t' = true.
Proof.
  apply (start_effects init 3 (Some 1%nat) 250);
    [reflexivity | reflexivity | split; discriminate].
Defined.

(** C7.  [start] on a running engine raises RuntimeError (the
    already-running error), and on an engine that is not running with a
    duration that is not positive it raises ValueError (the invalid-duration
    error).  Either way the engine is left exactly as it was and nothing is
    dispatched and no callback is called; so [start(0, observer)] on a fresh
    engine leaves [is_running] false. *)
Theorem start_rejects (t : timer) (seconds : Z) (cb : option callback)
    (start_immediately : bool) (now : Z) :
  _running t = true \/ seconds <= 0 ->
  exists err,
    start t seconds cb start_immediately now = (t, [], Some err) /\
    (_running t = true -> err = RuntimeError) /\
    (_running t = false -> err = ValueError) /\
    is_running (timer_of (start t seconds cb start_immediately now))
      = is_running t /\
    callbacks (events_of (start t seconds cb start_immediately now)) = [].
Proof.
  intros H. unfold start.
  destruct (_running t) eqn:Hrun.
  - exists RuntimeError. repeat split; congruence.
  - destruct H as [H | H]; [discriminate |].
    destruct (Z.leb_spec seconds 0) as [_ | Hlt]; [| lia].
    exists ValueError. repeat split; congruence.
Qed.

Lemma start_rejects_witness :
  exists err,
    start init 0 (Some 1%nat) true 250 = (init, [], Some err) /\
    (_running init = true -> err = RuntimeError) /\
    (_running init = false -> err = ValueError) /\
    is_running (timer_of (start init 0 (Some 1%nat) true 250))
      = is_running init /\
    callbacks (events_of (start init 0 (Some 1%nat) true 250)) = [].
Proof.
  apply (start_rejects init 0 (Some 1%nat) true 250).
  right. discriminate.
Defined.

(** The second scenario of the rejection: a start while a run is active. *)
Example start_twice :
  let '(t1, _, _) := start init 4 (Some 1%nat) true 0 in
  start t1 2 (Some 2%nat) true 10 = (t1, [], Some RuntimeError).
Proof. reflexivity. Qed.

(** ** One pass of the loop *)

Lemma land_false (t : timer) : land false t = (t, []).
Proof. reflexivity. Qed.

Lemma loop_test_true (t : timer) :
  loop_test t = true <-> _running t = true /\ 0 < _current_count t.
Proof.
  unfold loop_test. rewrite andb_true_iff, Z.ltb_lt. reflexivity.
Qed.

(** C8.  A pass entered with [_running] set (and the count positive, which
    is the rest of the while's condition) first reads the clock.  When the
    remaining time is positive, the first thing it does is sleep for the
    minimum of (one second minus the fraction of the current wall-clock
    second) and the remaining time.  When the remaining time is not
    positive, it sets the count to 0 and leaves the while for the final
    block, and does not sleep. *)
Theorem pass_sleeps_to_boundary (k : tick) (rest : list tick) (t : timer)
    (e : Z) :
  _running t = true -> 0 < _current_count t -> _end_time t = Some e ->
  lands BeforeTest k = false ->
  (0 < e - now_top k ->
   exists tr,
     events_of (while_loop (k :: rest) t)
       = EvSleep (Z.min (usec - now_top k mod usec) (e - now_top k)) :: tr)
  /\
  (e - now_top k <= 0 ->
   while_loop (k :: rest) t = (set_count t 0, [EvSetCount 0], Returned) /\
   current_count (set_count t 0) = 0 /\
   sleeps (events_of (while_loop (k :: rest) t)) = [] /\
   forall c,
     try_body (k :: rest) c t
       = (let '(t2, ev2, s) := final_block c (set_count t 0) in
          (t2, EvSetCount 0 :: ev2, s))).
Proof.
  intros Hrun Hcount Hend Hstop.
  assert (Htest : loop_test t = true) by (apply loop_test_true; auto).
  split; intros Hrem.
  - cbn [while_loop]. rewrite Hstop, land_false, Htest.
    unfold iteration. rewrite Hend.
    destruct (Z.leb_spec (e - now_top k) 0) as [Hle | _]; [lia |].
    pose proof (sleep_time_range e (now_top k) Hrem) as [Hd _].
    apply Z.ltb_lt in Hd. rewrite Hd.
    fold (microsecond (now_top k)). fold (time_until_next_second (now_top k)).
    fold (sleep_time e (now_top k)).
    destruct (land (lands InSleep k) t) as [t1 ev1].
    destruct (negb (_running t1)).
    + eexists. reflexivity.
    + destruct (land (lands AfterCheck k) t1) as [t2 ev2].
      destruct (update_count k (new_count e (now_wake k)) t2)
        as [[t3 ev3] [ | | ]].
      * destruct (while_loop rest t3) as [[t4 ev4] s].
        eexists. reflexivity.
      * eexists. reflexivity.
      * eexists. reflexivity.
  - assert (Hw : while_loop (k :: rest) t
                 = (set_count t 0, [EvSetCount 0], Returned)).
    { cbn [while_loop]. rewrite Hstop, land_false, Htest.
      unfold iteration. rewrite Hend.
      destruct (Z.leb_spec (e - now_top k) 0) as [_ | Hlt]; [| lia].
      reflexivity. }
    split; [exact Hw |]. split; [reflexivity |].
    split; [rewrite Hw; reflexivity |].
    intros c. unfold try_body. rewrite Hw. reflexivity.
Qed.

Lemma pass_sleeps_to_boundary_witness :
  (exists tr,
     events_of (while_loop [tick_at 300 1000050]
                  (set_started init 3 None 300))
       = EvSleep 999700 :: tr)
  /\
  while_loop [tick_at 2000070 2000070] (set_count (set_started init 2 None 0) 1)
    = (set_count (set_started init 2 None 0) 0, [EvSetCount 0], Returned).
Proof.
  split.
  - apply (pass_sleeps_to_boundary (tick_at 300 1000050) []
             (set_started init 3 None 300) (300 + 3 * usec));
      reflexivity.
  - apply (pass_sleeps_to_boundary (tick_at 2000070 2000070) []
             (set_count (set_started init 2 None 0) 1) (0 + 2 * usec));
      try reflexivity.
    discriminate.
Defined.

(** ** What a pass keeps and what the loop's exit guarantees *)

Lemma land_keeps (b : bool) (t t' : timer) (ev : list event) :
  land b t = (t', ev) ->
  _end_time t' = _end_time t /\ _callback t' = _callback t /\
  _current_count t' = _current_count t /\
  (_running t' = true -> _running t = true /\ ev = [] /\ t' = t).
Proof.
  unfold land. destruct b; intros H; inversion H; subst; cbn.
  - repeat split; discriminate.
  - repeat split; assumption.
Qed.

Lemma update_count_keeps (k : tick) (n : Z) (t t' : timer)
    (ev : list event) (c : control) :
  update_count k n t = (t', ev, c) ->
  _end_time t' = _end_time t /\ _callback t' = _callback t /\ c <> Break.
Proof.
  unfold update_count, land. intros H.
  split_pass; cbn in *; repeat split; try congruence;
    destruct (callback_ok k); discriminate.
Qed.

Lemma iteration_keeps (k : tick) (t t' : timer) (ev : list event)
    (c : control) :
  iteration k t = (t', ev, c) ->
  _end_time t' = _end_time t /\ _callback t' = _callback t.
Proof.
  unfold iteration. intros H.
  destruct (_end_time t) as [e |] eqn:He; [| inversion H; subst; auto].
  destruct (e - now_top k <=? 0); [inversion H; subst; cbn; auto |].
  destruct (land (lands InSleep k) t) as [t1 ev1] eqn:H1.
  apply land_keeps in H1 as (E1 & C1 & _).
  destruct (negb (_running t1)); [inversion H; subst; split; congruence |].
  destruct (land (lands AfterCheck k) t1) as [t2 ev2] eqn:H2.
  apply land_keeps in H2 as (E2 & C2 & _).
  destruct (update_count k (new_count e (now_wake k)) t2)
    as [[t3 ev3] c3] eqn:H3.
  apply update_count_keeps in H3 as (E3 & C3 & _).
  inversion H; subst. split; congruence.
Qed.

(** A pass whose reading of the clock is at or past the end time leaves the
    while. *)
Lemma iteration_breaks_at_end (k : tick) (t : timer) (e : Z) :
  _end_time t = Some e -> e <= now_top k ->
  iteration k t = (set_count t 0, [EvSetCount 0], Break).
Proof.
  intros He Hk. unfold iteration. rewrite He.
  destruct (Z.leb_spec (e - now_top k) 0); [reflexivity | lia].
Qed.

(** The while ends within any schedule in which the clock is read at or past
    the end time. *)
Lemma while_loop_terminates (sched : list tick) :
  forall (t : timer) (e : Z) (k : tick),
    _end_time t = Some e -> In k sched -> e <= now_top k ->
    status_of (while_loop sched t) <> Pending.
Proof.
  induction sched as [| a rest IH]; intros t e k He Hin Hk; [contradiction |].
  cbn [while_loop].
  destruct (land (lands BeforeTest a) t) as [t0 ev0] eqn:H0.
  apply land_keeps in H0 as (E0 & _).
  destruct (loop_test t0); [| discriminate].
  destruct (iteration a t0) as [[t1 ev1] c1] eqn:H1.
  destruct c1; try discriminate.
  destruct Hin as [-> | Hin].
  - rewrite (iteration_breaks_at_end k t0 e) in H1 by congruence.
    discriminate.
  - apply iteration_keeps in H1 as (E1 & _).
    specialize (IH t1 e k ltac:(congruence) Hin Hk).
    destruct (while_loop rest t1) as [[t2 ev2] s]. exact IH.
Qed.

Lemma final_block_not_pending (c : closing) (t : timer) :
  status_of (final_block c t) <> Pending.
Proof.
  unfold final_block, land, status_of. case_goal; discriminate.
Qed.

Lemma run_status (sched : list tick) (c : closing) (t : timer) :
  status_of (_run_countdown sched c t) = status_of (try_body sched c t) /\
  events_of (_run_countdown sched c t) = events_of (try_body sched c t).
Proof.
  unfold _run_countdown.
  destruct (try_body sched c t) as [[t1 ev] [ | | ]]; split; reflexivity.
Qed.

Lemma try_body_status (sched : list tick) (c : closing) (t : timer) :
  status_of (while_loop sched t) <> Pending ->
  status_of (try_body sched c t) <> Pending.
Proof.
  unfold try_body.
  destruct (while_loop sched t) as [[t1 ev1] [ | | ]]; cbn; intros H;
    try congruence.
  pose proof (final_block_not_pending c t1) as Hf.
  destruct (final_block c t1) as [[t2 ev2] s]. exact Hf.
Qed.

(** [_run_countdown] returns (or raises) within any schedule in which the
    clock is read at or past the end time. *)
Lemma run_countdown_terminates (sched : list tick) (c : closing) (t : timer)
    (e : Z) (k : tick) :
  _end_time t = Some e -> In k sched -> e <= now_top k ->
  status_of (_run_countdown sched c t) <> Pending.
Proof.
  intros He Hin Hk.
  destruct (run_status sched c t) as [-> _].
  apply try_body_status. exact (while_loop_terminates sched t e k He Hin Hk).
Qed.

(** The finally clause: a run that has ended has the flag clear. *)
Lemma run_ended_not_running (sched : list tick) (c : closing) (t : timer) :
  status_of (_run_countdown sched c t) <> Pending ->
  is_running (timer_of (_run_countdown sched c t)) = false.
Proof.
  intros Hdone. unfold _run_countdown in *.
  destruct (try_body sched c t) as [[t1 ev] [ | | ]];
    [reflexivity | reflexivity | exfalso; apply Hdone; reflexivity].
Qed.

(** An engine that is not running is never refused as already running. *)
Lemma start_not_refused (t : timer) (seconds : Z) (cb : option callback)
    (si : bool) (now : Z) :
  _running t = false ->
  snd (start t seconds cb si now) <> Some RuntimeError.
Proof.
  intros Hrun. unfold start. rewrite Hrun.
  destruct (seconds <=? 0); [discriminate |].
  destruct (end_time_overflows seconds now); discriminate.
Qed.

(** C10.  Whatever way [_run_countdown] ends - the countdown ran out, a
    stop was seen, or a callback or a dispatch raised - the finally clause
    has cleared [_running]: no ended run leaves [is_running] true, and a
    later [start] is never refused as already running, also after a callback
    raised; with a positive duration whose end time [datetime] can hold it
    starts a run.  The thread does end: if the engine has an end time and
    the schedule reads the clock at or past it, the run is not left
    pending. *)
Theorem finally_clears_running (sched : list tick) (c : closing) (t : timer) :
  (status_of (_run_countdown sched c t) <> Pending ->
   is_running (timer_of (_run_countdown sched c t)) = false /\
   (forall seconds cb si now,
      snd (start (timer_of (_run_countdown sched c t)) seconds cb si now)
      <> Some RuntimeError) /\
   forall seconds cb si now,
     0 < seconds -> representable now seconds ->
     exists t' ev,
       start (timer_of (_run_countdown sched c t)) seconds cb si now
         = (t', ev, None) /\
       is_running t' = true /\
       In EvSpawnLoop ev)
  /\
  (forall e k,
     _end_time t = Some e -> In k sched -> e <= now_top k ->
     status_of (_run_countdown sched c t) <> Pending).
Proof.
  split.
  - intros Hdone.
    pose proof (run_ended_not_running sched c t Hdone) as Hoff.
    split; [exact Hoff |]. unfold is_running in Hoff. split.
    + intros seconds cb si now. apply start_not_refused. exact Hoff.
    + intros seconds cb si now Hpos Hrep.
      rewrite (in_range_start _ seconds cb si now Hoff Hpos Hrep).
      eexists. eexists. split; [reflexivity |]. split; [reflexivity |].
      apply in_or_app. right. left. reflexivity.
  - intros e k. apply run_countdown_terminates.
Qed.

Lemma finally_clears_running_witness :
  status_of raising_run = Raised /\
  events_of raising_run
    = [EvSleep 999400; EvSetCount 2; EvSpeakCount 2; EvCallback 2] /\
  is_running (timer_of raising_run) = false /\
  exists t' ev,
    start (timer_of raising_run) 5 None true 2000000 = (t', ev, None) /\
    is_running t' = true /\
    In EvSpawnLoop ev.
Proof.
  split; [reflexivity |]. split; [reflexivity |].
  pose proof (finally_clears_running
    [{| tk_stop := None; now_top := 600; now_wake := 1000530;
        speak_ok := true; callback_ok := false |}]
    calm (set_started init 3 (Some 1%nat) 520)) as [H _].
  destruct H as (Hoff & _ & Hstart); [discriminate |].
  split; [exact Hoff |].
  apply (Hstart 5 None true 2000000); [reflexivity | split; discriminate].
Defined.

(** C9.  After a run that was not stopped and returned, the engine reports
    that it is not running, and a [start] on it does what the same [start]
    does on an engine that was never started: it raises what that one
    raises, never the already-running error, and dispatches what that one
    dispatches; and with a positive duration whose end time [datetime] can
    hold it leaves the very same engine, running, with the count at the
    duration, the new end time, and the loop's thread started. *)
Theorem restart_after_completion (sched : list tick) (t : timer)
    (seconds : Z) (cb : option callback) (si : bool) (now : Z) :
  Forall quiet sched ->
  status_of (_run_countdown sched calm t) = Returned ->
  let done := timer_of (_run_countdown sched calm t) in
  is_running done = false /\
  snd (start done seconds cb si now) = snd (start init seconds cb si now) /\
  events_of (start done seconds cb si now)
    = events_of (start init seconds cb si now) /\
  snd (start done seconds cb si now) <> Some RuntimeError /\
  (0 < seconds -> representable now seconds ->
   start done seconds cb si now = start init seconds cb si now /\
   snd (start done seconds cb si now) = None /\
   is_running (timer_of (start done seconds cb si now)) = true /\
   current_count (timer_of (start done seconds cb si now)) = seconds /\
   _end_time (timer_of (start done seconds cb si now))
     = Some (now + seconds * usec) /\
   In EvSpawnLoop (events_of (start done seconds cb si now))).
Proof.
  intros _ Hret done.
  assert (Hoff : is_running done = false)
    by (apply run_ended_not_running; rewrite Hret; discriminate).
  split; [exact Hoff |].
  unfold is_running in Hoff.
  split; [| split; [| split; [| ]]].
  - unfold start. rewrite Hoff. cbn [_running init].
    destruct (seconds <=? 0); [reflexivity |].
    destruct (end_time_overflows seconds now); reflexivity.
  - unfold start. rewrite Hoff. cbn [_running init].
    destruct (seconds <=? 0); [reflexivity |].
    destruct (end_time_overflows seconds now); reflexivity.
  - apply start_not_refused. exact Hoff.
  - intros Hpos Hrep.
    rewrite (in_range_start done seconds cb si now Hoff Hpos Hrep).
    rewrite (in_range_start init seconds cb si now eq_refl Hpos Hrep).
    repeat split; try reflexivity.
    unfold events_of. cbn [fst snd]. apply in_or_app. right. left.
    reflexivity.
Qed.

Lemma restart_after_completion_witness :
  events_of two_second_run
    = [EvSleep 999960; EvSetCount 1; EvSpeakCount 1; EvCallback 1;
       EvSleep 999940; EvSetCount 0; EvSpeakFinal; EvCallback 0] /\
  is_running (timer_of two_second_run) = false /\
  start (timer_of two_second_run) 4 None true 7000000
    = start init 4 None true 7000000 /\
  is_running
    (timer_of (start (timer_of two_second_run) 4 None true 7000000)) = true.
Proof.
  split; [reflexivity |].
  destruct (restart_after_completion
              [tick_at 40 1000050; tick_at 1000060 2000050;
               tick_at 2000060 2000060]
              (set_started init 2 (Some 1%nat) 0) 4 None true 7000000)
    as (Hoff & _ & _ & _ & H).
  - repeat constructor.
  - reflexivity.
  - destruct H as (Hsame & _ & Hrun & _);
      [reflexivity | split; discriminate |].
    split; [exact Hoff |]. split; [exact Hsame | exact Hrun].
Defined.

(** ** The wake-up path when the end time has been passed *)

(** C1. Where the code departs from the specification. A run of two seconds
    that nobody stops sleeps one second from time 0. If the thread reads the
    clock again 1.5 s after the end time, the recount at line 130 gives 0:
    line 135 calls the callback with 0, and the final block calls it with 0 a
    second time. If it reads the clock 2.5 s after the end time, the recount
    gives -1: the count becomes -1, the callback is called with -1, and the
    final block, which wants the count to be 0, delivers neither the
    completion announcement nor the call with 0. *)
Theorem completion_on_late_wake :
  (status_of (late_wake_run 3500000) = Returned /\
   events_of (late_wake_run 3500000)
     = [EvSleep 1000000; EvSetCount 0; EvSpeakCount 0; EvCallback 0;
        EvSpeakFinal; EvCallback 0] /\
   count_of is_callback0 (events_of (late_wake_run 3500000)) = 2%nat)
  /\
  (status_of (late_wake_run 4500000) = Returned /\
   events_of (late_wake_run 4500000)
     = [EvSleep 1000000; EvSetCount (-1); EvSpeakCount (-1);
        EvCallback (-1)] /\
   count_of is_final (events_of (late_wake_run 4500000)) = 0%nat /\
   count_of is_callback0 (events_of (late_wake_run 4500000)) = 0%nat /\
   current_count (timer_of (late_wake_run 4500000)) = -1).
Proof. repeat split; reflexivity. Qed.

(** The same undisturbed run when the thread wakes in time: the completion
    announcement and the call with 0 are delivered once each. *)
Example completion_on_timely_wake :
  count_of is_final (events_of two_second_run) = 1%nat /\
  count_of is_callback0 (events_of two_second_run) = 1%nat.
Proof. split; reflexivity. Qed.

(** C4. Where the code departs from the specification. With the end time 2.5 s
    in the past, line 130 computes [int(-2.5) + 1 = -1]; the count is set to
    -1, the while ends on [count > 0] being false, and the run is over with a
    count of -1 and no completion step. *)
Theorem recount_past_end :
  new_count 3000000 5500000 = -1 /\
  status_of stalled_run = Returned /\
  set_counts (events_of stalled_run) = [-1] /\
  current_count (timer_of stalled_run) = -1 /\
  count_of is_final (events_of stalled_run) = 0%nat.
Proof. repeat split; reflexivity. Qed.

(** ** The sleep *)

Lemma sleeps_app (a b : list event) : sleeps (a ++ b) = sleeps a ++ sleeps b.
Proof. apply flat_map_app. Qed.

Lemma land_sleeps (b : bool) (t : timer) : sleeps (snd (land b t)) = [].
Proof. destruct b; reflexivity. Qed.

Lemma update_count_sleeps (k : tick) (n : Z) (t : timer) :
  sleeps (events_of (update_count k n t)) = [].
Proof.
  unfold update_count, land, events_of. case_goal; reflexivity.
Qed.

(** A pass sleeps once when time remains, and not at all otherwise. *)
Lemma iteration_sleeps (k : tick) (t : timer) :
  sleeps (events_of (iteration k t))
  = match _end_time t with
    | Some e =>
        if e - now_top k <=? 0 then [] else [sleep_time e (now_top k)]
    | None => []
    end.
Proof.
  unfold iteration.
  destruct (_end_time t) as [e |]; [| reflexivity].
  destruct (Z.leb_spec (e - now_top k) 0) as [Hle | Hlt]; [reflexivity |].
  pose proof (sleep_time_range e (now_top k) Hlt) as [Hd _].
  apply Z.ltb_lt in Hd. rewrite Hd.
  destruct (land (lands InSleep k) t) as [t1 ev1] eqn:H1.
  pose proof (land_sleeps (lands InSleep k) t) as S1. rewrite H1 in S1.
  cbn [snd] in S1.
  destruct (negb (_running t1)).
  - unfold events_of. cbn [fst snd]. rewrite sleeps_app, S1. reflexivity.
  - destruct (land (lands AfterCheck k) t1) as [t2 ev2] eqn:H2.
    pose proof (land_sleeps (lands AfterCheck k) t1) as S2. rewrite H2 in S2.
    cbn [snd] in S2.
    pose proof (update_count_sleeps k (new_count e (now_wake k)) t2) as S3.
    destruct (update_count k (new_count e (now_wake k)) t2) as [[t3 ev3] c3].
    unfold events_of in *. cbn [fst snd] in *.
    rewrite !sleeps_app, S1, S2, S3. reflexivity.
Qed.

Lemma iteration_sleeps_bounded (k : tick) (t : timer) :
  Forall bounded_sleep (sleeps (events_of (iteration k t))).
Proof.
  rewrite iteration_sleeps.
  destruct (_end_time t) as [e |]; [| constructor].
  destruct (Z.leb_spec (e - now_top k) 0) as [Hle | Hlt]; [constructor |].
  constructor; [| constructor].
  exact (sleep_time_range e (now_top k) Hlt).
Qed.

Lemma while_loop_sleeps_bounded (sched : list tick) :
  forall t, Forall bounded_sleep (sleeps (events_of (while_loop sched t))).
Proof.
  induction sched as [| k rest IH]; intros t; [constructor |].
  cbn [while_loop].
  destruct (land (lands BeforeTest k) t) as [t0 ev0] eqn:H0.
  pose proof (land_sleeps (lands BeforeTest k) t) as S0. rewrite H0 in S0.
  cbn [snd] in S0.
  destruct (loop_test t0).
  - pose proof (iteration_sleeps_bounded k t0) as S1.
    destruct (iteration k t0) as [[t1 ev1] c1].
    unfold events_of in S1. cbn [fst snd] in S1.
    destruct c1.
    + specialize (IH t1).
      destruct (while_loop rest t1) as [[t2 ev2] s].
      unfold events_of in *. cbn [fst snd] in *.
      rewrite !sleeps_app, S0. cbn [app].
      apply Forall_app. split; assumption.
    + unfold events_of. cbn [fst snd]. rewrite sleeps_app, S0. exact S1.
    + unfold events_of. cbn [fst snd]. rewrite sleeps_app, S0. exact S1.
  - unfold events_of. cbn [fst snd]. rewrite S0. constructor.
Qed.

Lemma final_block_sleeps (c : closing) (t : timer) :
  sleeps (events_of (final_block c t)) = [].
Proof.
  unfold final_block, land, events_of. case_goal; reflexivity.
Qed.

Lemma run_sleeps_bounded (sched : list tick) (c : closing) (t : timer) :
  Forall bounded_sleep (sleeps (events_of (_run_countdown sched c t))).
Proof.
  destruct (run_status sched c t) as [_ ->].
  unfold try_body.
  pose proof (while_loop_sleeps_bounded sched t) as Hw.
  destruct (while_loop sched t) as [[t1 ev1] s1].
  unfold events_of in Hw. cbn [fst snd] in Hw.
  destruct s1; try exact Hw.
  pose proof (final_block_sleeps c t1) as Hf.
  destruct (final_block c t1) as [[t2 ev2] s2].
  unfold events_of in *. cbn [fst snd] in *.
  rewrite sleeps_app, Hf, app_nil_r. exact Hw.
Qed.

(** C2 does not hold as specified: a run started on a whole second with at
    least a second to go asks for one sleep of a full second, ten times the
    100 ms slice. *)
Lemma sleep_longer_than_a_slice :
  ~ (forall sched c t d,
       In d (sleeps (events_of (_run_countdown sched c t))) -> d <= 100000).
Proof.
  intros H.
  assert (Hd : 1000000 <= 100000).
  { apply (H [tick_at 0 1000050] calm (set_started init 3 None 0) 1000000).
    left. reflexivity. }
  apply Hd. reflexivity.
Qed.

(** C2, as the code has it. Each pass of the loop with time remaining makes
    exactly one call of [time.sleep], for the minimum of the time to the next
    wall-clock second and the remaining time; every sleep of every run is
    longer than 0 and at most one second; and a stop that lands during the
    sleep is seen at the read of [_running] that follows it, where the pass
    ends with no announcement and no callback. The flag is not read in
    between. *)
Theorem sleep_is_one_call_within_a_second :
  (forall sched c t d,
     In d (sleeps (events_of (_run_countdown sched c t))) -> 0 < d <= usec)
  /\
  (forall k t e,
     _end_time t = Some e -> 0 < e - now_top k ->
     sleeps (events_of (iteration k t))
       = [Z.min (time_until_next_second (now_top k)) (e - now_top k)])
  /\
  (forall k t e,
     _end_time t = Some e -> 0 < e - now_top k ->
     lands InSleep k = true ->
     iteration k t
       = (stop_write t, [EvSleep (sleep_time e (now_top k)); EvStopWrite],
          Break)).
Proof.
  split; [| split].
  - intros sched c t d Hin.
    pose proof (run_sleeps_bounded sched c t) as Hall.
    rewrite Forall_forall in Hall. exact (Hall d Hin).
  - intros k t e He Hrem. rewrite iteration_sleeps, He.
    destruct (Z.leb_spec (e - now_top k) 0); [lia | reflexivity].
  - intros k t e He Hrem Hland. unfold iteration. rewrite He.
    destruct (Z.leb_spec (e - now_top k) 0); [lia |].
    pose proof (sleep_time_range e (now_top k) Hrem) as [Hd _].
    apply Z.ltb_lt in Hd. rewrite Hd, Hland. reflexivity.
Qed.

Lemma sleep_is_one_call_within_a_second_witness :
  0 < 1000000 <= usec /\
  sleeps (events_of (iteration (tick_at 0 1000050)
                       (set_started init 3 None 0)))
    = [Z.min (time_until_next_second 0) (3000000 - 0)] /\
  iteration {| tk_stop := Some InSleep; now_top := 0; now_wake := 1000050;
               speak_ok := true; callback_ok := true |}
            (set_started init 3 (Some 1%nat) 0)
    = (stop_write (set_started init 3 (Some 1%nat) 0),
       [EvSleep (sleep_time 3000000 0); EvStopWrite], Break).
Proof.
  destruct sleep_is_one_call_within_a_second as (H1 & H2 & H3).
  split; [| split].
  - apply (H1 [tick_at 0 1000050] calm (set_started init 3 None 0) 1000000).
    left. reflexivity.
  - apply (H2 (tick_at 0 1000050) (set_started init 3 None 0) 3000000);
      reflexivity.
  - apply (H3 {| tk_stop := Some InSleep; now_top := 0; now_wake := 1000050;
                 speak_ok := true; callback_ok := true |}
              (set_started init 3 (Some 1%nat) 0) 3000000);
      reflexivity.
Defined.

(** ** What the loop does after a stop *)

Lemma after_stop_app (a b : list event) :
  after_stop (a ++ b)
  = if has_stop a then after_stop a ++ b else after_stop b.
Proof.
  induction a as [| e a IH]; [reflexivity |].
  cbn. destruct (is_stop_write e); [reflexivity | exact IH].
Qed.

Lemma after_stop_none (a : list event) :
  has_stop a = false -> after_stop a = [].
Proof.
  intros H. pose proof (after_stop_app a []) as E.
  rewrite app_nil_r, H in E. exact E.
Qed.

Lemma silent_app (a b : list event) : silent a -> silent b -> silent (a ++ b).
Proof. intros Ha Hb. apply Forall_app. split; assumption. Qed.

Lemma silent_counts (tr : list event) :
  silent tr ->
  count_of is_announce tr = 0%nat /\ count_of is_call tr = 0%nat.
Proof.
  unfold count_of.
  induction 1 as [| e tr He _ [IH1 IH2]]; [split; reflexivity |].
  destruct e; cbn in *; try discriminate; auto.
Qed.

Lemma count_of_app (p : event -> bool) (a b : list event) :
  count_of p (a ++ b) = (count_of p a + count_of p b)%nat.
Proof. unfold count_of. rewrite filter_app. apply length_app. Qed.

Lemma late_ok_silent_tail (a b : list event) :
  has_stop a = true -> late_ok a -> silent b -> late_ok (a ++ b).
Proof.
  intros Hs [Ha Hc] Hb. unfold late_ok.
  rewrite after_stop_app, Hs, !count_of_app.
  destruct (silent_counts b Hb) as [-> ->]. lia.
Qed.

Lemma late_ok_skip (a b : list event) :
  has_stop a = false -> late_ok b -> late_ok (a ++ b).
Proof.
  intros Hs Hb. unfold late_ok. rewrite after_stop_app, Hs. exact Hb.
Qed.

(** One pass: with the flag already clear it does nothing but leave; if a
    stop lands in it, the flag is clear afterwards, at most one announcement
    and one callback follow the write, and none when the write landed before
    a read of the flag. *)
Lemma pass_after_stop (k : tick) (t : timer) :
  (_running t = false ->
   silent (events_of (pass k t)) /\
   _running (timer_of (pass k t)) = false /\ snd (pass k t) = Break)
  /\
  (has_stop (events_of (pass k t)) = true ->
   _running (timer_of (pass k t)) = false /\
   late_ok (events_of (pass k t)) /\
   (at_poll k -> silent (after_stop (events_of (pass k t))))).
Proof.
  unfold pass, iteration, update_count, land, lands, loop_test, andb,
    events_of, timer_of.
  case_goal; settle.
Qed.

Lemma final_after_stop (c : closing) (t : timer) :
  (_running t = false -> silent (events_of (final_block c t)))
  /\ late_ok (events_of (final_block c t))
  /\ (at_final_poll c -> silent (after_stop (events_of (final_block c t)))).
Proof.
  unfold final_block, land, lands_final, andb, events_of.
  case_goal; settle.
Qed.

(** The events of the try's body, pass by pass. *)
Lemma try_body_nil (c : closing) (t : timer) :
  events_of (try_body [] c t)
  = if loop_test t then [] else events_of (final_block c t).
Proof.
  unfold try_body. cbn [while_loop].
  destruct (loop_test t); [reflexivity |].
  destruct (final_block c t) as [[t2 ev2] s]. reflexivity.
Qed.

Lemma try_body_cons (k : tick) (rest : list tick) (c : closing) (t : timer) :
  events_of (try_body (k :: rest) c t)
  = events_of (pass k t)
    ++ match snd (pass k t) with
       | Continue => events_of (try_body rest c (timer_of (pass k t)))
       | Break => events_of (final_block c (timer_of (pass k t)))
       | Raise => []
       end.
Proof.
  unfold try_body, pass. cbn [while_loop].
  destruct (land (lands BeforeTest k) t) as [t0 ev0].
  destruct (loop_test t0).
  - destruct (iteration k t0) as [[t1 ev1] [ | | ]];
      unfold events_of, timer_of; cbn [fst snd].
    + destruct (while_loop rest t1) as [[t2 ev2] [ | | ]]; cbn [fst snd];
        try (rewrite <- app_assoc; reflexivity).
      destruct (final_block c t2) as [[t3 ev3] s3]. cbn [fst snd].
      rewrite <- !app_assoc. reflexivity.
    + destruct (final_block c t1) as [[t3 ev3] s3]. reflexivity.
    + rewrite app_nil_r. reflexivity.
  - unfold events_of, timer_of. cbn [fst snd].
    destruct (final_block c t0) as [[t3 ev3] s3]. reflexivity.
Qed.

(** Entered with the flag clear, the loop announces nothing and calls
    nothing. *)
Lemma stopped_try_body_silent (sched : list tick) (c : closing) (t : timer) :
  _running t = false -> silent (events_of (try_body sched c t)).
Proof.
  intros Hoff. destruct sched as [| k rest].
  - rewrite try_body_nil. unfold loop_test. rewrite Hoff. cbn.
    apply final_after_stop. exact Hoff.
  - rewrite try_body_cons.
    destruct (pass_after_stop k t) as [H _].
    destruct (H Hoff) as (Hs & Hoff' & ->).
    apply silent_app; [exact Hs |].
    apply final_after_stop. exact Hoff'.
Qed.

Lemma silent_nil : silent [].
Proof. constructor. Qed.

Lemma late_ok_nil : late_ok [].
Proof. split; cbn; lia. Qed.

Lemma try_body_after_stop (sched : list tick) (c : closing) :
  forall t,
    late_ok (events_of (try_body sched c t)) /\
    (Forall at_poll sched -> at_final_poll c ->
     silent (after_stop (events_of (try_body sched c t)))).
Proof.
  induction sched as [| k rest IH]; intros t.
  - rewrite try_body_nil.
    destruct (loop_test t);
      [split; intros; [apply late_ok_nil | constructor] |].
    destruct (final_after_stop c t) as (_ & Hl & Hp). split; auto.
  - rewrite try_body_cons.
    destruct (pass_after_stop k t) as [_ Hstop].
    set (tail := match snd (pass k t) with
                 | Continue => events_of (try_body rest c (timer_of (pass k t)))
                 | Break => events_of (final_block c (timer_of (pass k t)))
                 | Raise => []
                 end).
    destruct (has_stop (events_of (pass k t))) eqn:Hs.
    + destruct (Hstop eq_refl) as (Hoff & Hl & Hp).
      assert (Htail : silent tail).
      { unfold tail. destruct (snd (pass k t)).
        - apply stopped_try_body_silent. exact Hoff.
        - apply final_after_stop. exact Hoff.
        - apply silent_nil. }
      split.
      * apply late_ok_silent_tail; assumption.
      * intros Hall Hc. inversion Hall as [| ? ? Hk Hrest]; subst.
        rewrite after_stop_app, Hs. apply silent_app; auto.
    + assert (Htail : late_ok tail /\
                      (Forall at_poll rest -> at_final_poll c ->
                       silent (after_stop tail))).
      { unfold tail. destruct (snd (pass k t)).
        - apply IH.
        - destruct (final_after_stop c (timer_of (pass k t)))
            as (_ & Hl & Hp). split; auto.
        - split; intros; [apply late_ok_nil | constructor]. }
      destruct Htail as [Hl Hp]. split.
      * apply late_ok_skip; assumption.
      * intros Hall Hc. inversion Hall as [| ? ? Hk Hrest]; subst.
        rewrite after_stop_app, Hs. auto.
Qed.

Lemma silent_filter (tr : list event) :
  silent tr -> filter is_delivery tr = [].
Proof.
  induction 1 as [| e tr He _ IH]; [reflexivity |].
  cbn. rewrite He. exact IH.
Qed.

Lemma pass_unmarked (k : tick) (t : timer) : unmarked (events_of (pass k t)).
Proof.
  unfold pass, iteration, update_count, land, lands, loop_test, andb,
    events_of, unmarked.
  case_goal; repeat constructor.
Qed.

Lemma final_block_unmarked (c : closing) (t : timer) :
  unmarked (events_of (final_block c t)).
Proof.
  unfold final_block, land, lands_final, andb, events_of, unmarked.
  case_goal; repeat constructor.
Qed.

Lemma try_body_unmarked (sched : list tick) (c : closing) :
  forall t, unmarked (events_of (try_body sched c t)).
Proof.
  induction sched as [| k rest IH]; intros t.
  - rewrite try_body_nil. destruct (loop_test t); [constructor |].
    apply final_block_unmarked.
  - rewrite try_body_cons. apply Forall_app. split; [apply pass_unmarked |].
    destruct (snd (pass k t));
      [apply IH | apply final_block_unmarked | constructor].
Qed.

Lemma after_return_unmarked (tr : list event) :
  unmarked tr -> after_return (tr ++ [EvStopReturn]) = [].
Proof.
  induction 1 as [| e tr He _ IH]; [reflexivity |].
  cbn. rewrite He. exact IH.
Qed.

Lemma after_return_insert (seen : nat) :
  forall tr,
    unmarked tr -> after_return (insert_return seen tr) = skipn seen tr.
Proof.
  induction seen as [| n IH]; intros tr Hu.
  - destruct tr; reflexivity.
  - destruct tr as [| e tr]; [reflexivity |].
    inversion Hu as [| ? ? He Hrest]; subst.
    cbn. rewrite He. apply IH. exact Hrest.
Qed.

(** What follows the return of [stop()] is the end of what follows its
    write: all of it has gone by when the join saw the thread end. *)
Lemma after_return_stop_trace (j : join_result) (tr : list event) :
  unmarked tr ->
  after_return (stop_trace j tr)
  = match j with
    | Joined => []
    | TimedOut seen => skipn seen (after_stop tr)
    end.
Proof.
  induction 1 as [| e tr He Hu IH].
  - destruct j as [| [| n]]; reflexivity.
  - cbn [stop_trace after_stop].
    destruct (is_stop_write e) eqn:Hw.
    + cbn [after_return]. rewrite He.
      destruct j as [| seen];
        [apply after_return_unmarked | apply after_return_insert]; exact Hu.
    + cbn [after_return]. rewrite He. exact IH.
Qed.

Lemma silent_skipn (n : nat) (tr : list event) :
  silent tr -> silent (skipn n tr).
Proof.
  revert tr. induction n as [| n IH]; intros tr H; [exact H |].
  destruct tr as [| e tr]; [constructor |].
  inversion H; subst. cbn. apply IH. assumption.
Qed.

Lemma count_of_skipn (p : event -> bool) (n : nat) (tr : list event) :
  (count_of p (skipn n tr) <= count_of p tr)%nat.
Proof.
  unfold count_of.
  revert tr. induction n as [| n IH]; intros tr; [cbn; lia |].
  destruct tr as [| e tr]; [cbn; lia |].
  cbn [skipn]. specialize (IH tr). cbn.
  destruct (p e); cbn; lia.
Qed.

(** C3 does not hold as specified.  The loop reads the flag at line 126 and
    acts on it at lines 133-135, and a stop that writes the flag in between
    is followed by that pass's announcement and callback: "once running is
    false" fails.  If the loop is held up there for the second that the join
    of line 168 waits (the process stopped and continued, say), [stop()]
    returns first and the two follow its return: "after Stop() returns"
    fails too. *)
Lemma delivery_after_stop_write :
  events_of stop_after_check_run
    = [EvSleep 1000000; EvStopWrite; EvSetCount 2; EvSpeakCount 2;
       EvCallback 2] /\
  stop_timed_out_trace
    = [EvSleep 1000000; EvStopWrite; EvStopReturn; EvSetCount 2;
       EvSpeakCount 2; EvCallback 2] /\
  ~ (forall sched c t,
       filter is_delivery (after_stop (events_of (_run_countdown sched c t)))
       = []) /\
  ~ (forall sched c t j,
       filter is_delivery
         (after_return
            (stop_trace j (events_of (_run_countdown sched c t))))
       = []).
Proof.
  split; [reflexivity |]. split; [reflexivity |]. split.
  - intros H.
    specialize (H [{| tk_stop := Some AfterCheck; now_top := 0;
                      now_wake := 1000050; speak_ok := true;
                      callback_ok := true |}]
                  calm (set_started init 3 (Some 1%nat) 0)).
    discriminate H.
  - intros H.
    specialize (H [{| tk_stop := Some AfterCheck; now_top := 0;
                      now_wake := 1000050; speak_ok := true;
                      callback_ok := true |}]
                  calm (set_started init 3 (Some 1%nat) 0) (TimedOut 0)).
    discriminate H.
Qed.

(** C3, as the code has it.  After [stop()] returns no further announcement
    or callback is issued for that run when its join saw the loop's thread
    end, and none, whether the join timed out or not, when the write landed
    where the loop's next step is a read of the flag - before the while's
    test, during the sleep, before the test of the final block; nothing is
    then issued after the write either.  In every run at most one
    announcement and at most one callback are issued after the write, and so
    after the return: those of the pass (or of the final block) that had
    already read the flag.  A loop entered with the flag clear issues
    nothing. *)
Theorem no_delivery_after_observed_stop (sched : list tick) (c : closing)
    (t : timer) :
  (status_of (_run_countdown sched c t) <> Pending ->
   filter is_delivery
     (after_return
        (stop_trace Joined (events_of (_run_countdown sched c t)))) = [])
  /\
  (Forall at_poll sched -> at_final_poll c ->
   filter is_delivery (after_stop (events_of (_run_countdown sched c t)))
   = [] /\
   forall j,
     filter is_delivery
       (after_return
          (stop_trace j (events_of (_run_countdown sched c t)))) = [])
  /\
  ((count_of is_announce
      (after_stop (events_of (_run_countdown sched c t))) <= 1)%nat /\
   (count_of is_call
      (after_stop (events_of (_run_countdown sched c t))) <= 1)%nat /\
   forall j,
     (count_of is_announce
        (after_return
           (stop_trace j (events_of (_run_countdown sched c t)))) <= 1)%nat
     /\
     (count_of is_call
        (after_return
           (stop_trace j (events_of (_run_countdown sched c t)))) <= 1)%nat)
  /\
  (_running t = false ->
   filter is_delivery (events_of (_run_countdown sched c t)) = []).
Proof.
  destruct (run_status sched c t) as [_ ->].
  destruct (try_body_after_stop sched c t) as [[Hl1 Hl2] Hp].
  pose proof (try_body_unmarked sched c t) as Hu.
  split; [| split; [| split]].
  - intros _. rewrite (after_return_stop_trace Joined _ Hu). reflexivity.
  - intros Hall Hc. specialize (Hp Hall Hc).
    split; [apply silent_filter; exact Hp |].
    intros j. rewrite (after_return_stop_trace j _ Hu).
    destruct j as [| seen]; [reflexivity |].
    apply silent_filter, silent_skipn. exact Hp.
  - split; [exact Hl1 |]. split; [exact Hl2 |].
    intros j. rewrite (after_return_stop_trace j _ Hu).
    destruct j as [| seen]; [cbn; lia |].
    pose proof (count_of_skipn is_announce seen
                  (after_stop (events_of (try_body sched c t)))).
    pose proof (count_of_skipn is_call seen
                  (after_stop (events_of (try_body sched c t)))).
    lia.
  - intros Hoff. apply silent_filter, stopped_try_body_silent. exact Hoff.
Qed.

Lemma no_delivery_after_observed_stop_witness :
  events_of stop_in_sleep_run = [EvSleep 1000000; EvStopWrite] /\
  filter is_delivery (after_stop (events_of stop_in_sleep_run)) = [] /\
  filter is_delivery
    (after_return (stop_trace (TimedOut 0) (events_of stop_in_sleep_run)))
    = [] /\
  filter is_delivery
    (after_return (stop_trace Joined (events_of stop_after_check_run)))
    = [] /\
  filter is_delivery
    (events_of (_run_countdown [tick_at 0 1000050] calm
                  (stop_write (set_started init 3 (Some 1%nat) 0)))) = [].
Proof.
  split; [reflexivity |].
  destruct (no_delivery_after_observed_stop
              [{| tk_stop := Some InSleep; now_top := 0;
                  now_wake := 1000050; speak_ok := true;
                  callback_ok := true |}]
              calm (set_started init 3 (Some 1%nat) 0)) as (_ & H & _ & _).
  destruct H as [H1 H2].
  { constructor; [split; cbn; discriminate | constructor]. }
  { split; cbn; discriminate. }
  destruct (no_delivery_after_observed_stop
              [{| tk_stop := Some AfterCheck; now_top := 0;
                  now_wake := 1000050; speak_ok := true;
                  callback_ok := true |}]
              calm (set_started init 3 (Some 1%nat) 0)) as (H3 & _ & _ & _).
  destruct (no_delivery_after_observed_stop [tick_at 0 1000050] calm
              (stop_write (set_started init 3 (Some 1%nat) 0)))
    as (_ & _ & _ & H4).
  split; [exact H1 |]. split; [exact (H2 (TimedOut 0)) |].
  split; [apply H3; discriminate | apply H4; reflexivity].
Defined.

(** ** The values the count takes *)


Lemma callbacks_app (a b : list event) :
  callbacks (a ++ b) = callbacks a ++ callbacks b.
Proof. apply flat_map_app. Qed.

Lemma utterances_app (a b : list event) :
  utterances (a ++ b) = utterances a ++ utterances b.
Proof. apply flat_map_app. Qed.

(** The try's body, pass by pass. *)
Lemma try_body_step (k : tick) (rest : list tick) (c : closing) (t : timer) :
  try_body (k :: rest) c t
  = match pass k t with
    | (t1, ev, Continue) =>
        let '(t2, ev2, s) := try_body rest c t1 in (t2, ev ++ ev2, s)
    | (t1, ev, Break) =>
        let '(t2, ev2, s) := final_block c t1 in (t2, ev ++ ev2, s)
    | (t1, ev, Raise) => (t1, ev, Raised)
    end.
Proof.
  unfold try_body, pass. cbn [while_loop].
  destruct (land (lands BeforeTest k) t) as [t0 ev0].
  destruct (loop_test t0); [| reflexivity].
  destruct (iteration k t0) as [[t1 ev1] [ | | ]]; try reflexivity.
  destruct (while_loop rest t1) as [[t2 ev2] [ | | ]];
    try (rewrite <- app_assoc; reflexivity).
  destruct (final_block c t2) as [[t3 ev3] s3].
  rewrite <- !app_assoc. reflexivity.
Qed.




(** An undisturbed pass of a running countdown. *)
Lemma quiet_pass (k : tick) (t : timer) (e : Z) :
  quiet k -> _running t = true -> 0 < _current_count t ->
  _end_time t = Some e ->
  pass k t
  = if e - now_top k <=? 0 then (set_count t 0, [EvSetCount 0], Break)
    else
      let n := new_count e (now_wake k) in
      if n <? _current_count t then
        (set_count t n,
         [EvSleep (sleep_time e (now_top k)); EvSetCount n; EvSpeakCount n]
           ++ call_events (_callback t) n,
         Continue)
      else (t, [EvSleep (sleep_time e (now_top k))], Continue).
Proof.
  intros (Hs & Hsp & Hcb) Hrun Hc He.
  assert (Htest : loop_test t = true) by (apply loop_test_true; auto).
  unfold pass, lands. rewrite Hs, land_false, Htest.
  unfold iteration, lands. rewrite He, Hs.
  destruct (Z.leb_spec (e - now_top k) 0) as [Hle | Hlt]; [reflexivity |].
  pose proof (sleep_time_range e (now_top k) Hlt) as [Hd _].
  apply Z.ltb_lt in Hd. rewrite Hd, !land_false, Hrun.
  cbn [negb]. unfold update_count, lands. rewrite Hs, Hsp, Hcb, land_false.
  cbv zeta.
  destruct (new_count e (now_wake k) <? _current_count t); [| reflexivity].
  cbn [_callback set_count]. destruct (_callback t); reflexivity.
Qed.

(** The undisturbed final block of a running countdown that stands at 0. *)
Lemma calm_final_block (t : timer) :
  _running t = true -> _current_count t = 0 ->
  final_block calm t
  = (t, EvSpeakFinal :: call_events (_callback t) 0, Returned).
Proof.
  intros Hrun Hc. unfold final_block. cbn.
  rewrite Hc, Hrun. destruct (_callback t); reflexivity.
Qed.





Lemma run_timer (sched : list tick) (c : closing) (t : timer) :
  _current_count (timer_of (_run_countdown sched c t))
  = _current_count (timer_of (try_body sched c t)).
Proof.
  unfold _run_countdown.
  destruct (try_body sched c t) as [[t1 ev] [ | | ]]; reflexivity.
Qed.





(** ** Completion when the thread wakes in time *)

Lemma call_events_counts (cb : option callback) (n : Z) :
  count_of is_final (call_events cb n) = 0%nat /\
  count_of is_callback0 (call_events cb n)
    = match cb with
      | Some _ => if n =? 0 then 1%nat else 0%nat
      | None => 0%nat
      end.
Proof.
  destruct cb; cbn; [| split; reflexivity].
  unfold count_of. cbn. destruct (n =? 0); split; reflexivity.
Qed.

(** An undisturbed run in which no wake-up is read a second or more after
    the end time, and which returns, delivers the completion announcement
    once and the call with 0 once (when there is a callback), and ends with
    the count at 0.  The departures shown for C1 and C4 need a later
    wake-up. *)
Lemma completion_once_when_wakes_in_time (sched : list tick) :
  forall (t : timer) (e : Z),
    _running t = true -> 0 < _current_count t -> _end_time t = Some e ->
    Forall quiet sched -> Forall (wakes_in_time e) sched ->
    status_of (try_body sched calm t) = Returned ->
    count_of is_final (events_of (try_body sched calm t)) = 1%nat /\
    count_of is_callback0 (events_of (try_body sched calm t))
      = match _callback t with Some _ => 1%nat | None => 0%nat end /\
    _current_count (timer_of (try_body sched calm t)) = 0.
Proof.
  induction sched as [| k rest IH]; intros t e Hrun Hc He Hq Hw Hret.
  - exfalso. unfold try_body in Hret. cbn [while_loop] in Hret.
    assert (Htest : loop_test t = true) by (apply loop_test_true; auto).
    rewrite Htest in Hret. discriminate.
  - inversion Hq as [| ? ? Hk Hrest]; subst.
    inversion Hw as [| ? ? Hwk Hwrest]; subst.
    rewrite try_body_step in *.
    rewrite (quiet_pass k t e Hk Hrun Hc He) in *.
    unfold wakes_in_time in Hwk.
    destruct (Z.leb_spec (e - now_top k) 0) as [Hle | Hlt].
    + rewrite (calm_final_block (set_count t 0)) by (cbn; auto).
      cbn [_callback set_count].
      destruct (_callback t); repeat split; reflexivity.
    + specialize (Hwk Hlt). cbv zeta in *.
      destruct (Z.ltb_spec (new_count e (now_wake k)) (_current_count t))
        as [Hlt' | Hge].
      * specialize (IH (set_count t (new_count e (now_wake k))) e
                      Hrun ltac:(cbn; lia) He Hrest Hwrest).
        destruct (try_body rest calm
                    (set_count t (new_count e (now_wake k))))
          as [[t2 ev2] s2].
        unfold status_of, events_of, timer_of in *. cbn [fst snd] in *.
        destruct (IH Hret) as (I1 & I2 & I3).
        destruct (call_events_counts (_callback t)
                    (new_count e (now_wake k))) as (C1 & C2).
        assert (Hnz : (new_count e (now_wake k) =? 0) = false)
          by (apply Z.eqb_neq; lia).
        rewrite Hnz in C2.
        rewrite !count_of_app, I1, I2, C1, C2.
        cbn [_callback set_count].
        destruct (_callback t); repeat split; auto.
      * specialize (IH t e Hrun Hc He Hrest Hwrest).
        destruct (try_body rest calm t) as [[t2 ev2] s2].
        unfold status_of, events_of, timer_of in *. cbn [fst snd] in *.
        destruct (IH Hret) as (I1 & I2 & I3).
        rewrite !count_of_app, I1, I2.
        repeat split; auto.
Qed.

(** ** The sleep and the recount, by the clock *)

(** X1.  With time remaining, the sleep of a pass is due at the next whole
    wall-clock second or at the end time, whichever comes first; it is due
    after the reading it was computed from and never after the end time. *)
Theorem sleep_due_time (e now : Z) :
  0 < e - now ->
  now + sleep_time e now = Z.min (usec * (now / usec + 1)) e /\
  now < now + sleep_time e now <= e.
Proof.
  intros Hrem. split; [exact (sleep_due e now Hrem) |].
  pose proof (sleep_time_range e now Hrem) as Hd.
  unfold sleep_time in *. lia.
Qed.

Lemma sleep_due_time_witness :
  2000410 + sleep_time 3000300 2000410
    = Z.min (usec * (2000410 / usec + 1)) 3000300 /\
  2000410 < 2000410 + sleep_time 3000300 2000410 <= 3000300.
Proof. apply (sleep_due_time 3000300 2000410). reflexivity. Defined.

(** The count the recount gives, against the remaining time it read. *)
Lemma new_count_bounds (e now : Z) :
  (2 <= new_count e now ->
   (new_count e now - 1) * usec <= e - now < new_count e now * usec) /\
  (new_count e now = 1 -> - usec < e - now < usec).
Proof.
  unfold new_count. split; intros H.
  - assert (Hq : 1 <= Z.quot (e - now) usec) by lia.
    assert (Hr : 0 <= e - now).
    { destruct (Z.le_gt_cases 0 (e - now)) as [| Hneg]; [assumption |].
      pose proof (Z.quot_opp_l (e - now) usec ltac:(discriminate)) as Ho.
      pose proof (Z.quot_pos (- (e - now)) usec ltac:(lia) usec_pos). lia. }
    rewrite Z.quot_div_nonneg in * by (auto using usec_pos).
    pose proof (Z.div_mod (e - now) usec ltac:(discriminate)) as Hdm.
    pose proof (Z.mod_pos_bound (e - now) usec usec_pos) as Hm.
    lia.
  - assert (Hq : Z.quot (e - now) usec = 0) by lia.
    apply Z.quot_small_iff in Hq; [| discriminate].
    unfold usec in *. lia.
Qed.

(** What a pass announces is the recount of its wake-up, and it is below
    the count the pass began with. *)
Lemma iteration_speak (k : tick) (t : timer) (n : Z) :
  In (EvSpeakCount n) (events_of (iteration k t)) ->
  exists e,
    _end_time t = Some e /\ n = new_count e (now_wake k) /\
    n < _current_count t.
Proof.
  unfold iteration, update_count, land, lands, events_of.
  case_goal; intros H;
    repeat (destruct H as [H | H]; try discriminate H); try contradiction;
    inversion H; subst; eexists; repeat split;
    apply Z.ltb_lt; assumption.
Qed.

(** X2.  While less than 2^34 seconds remain, or have passed since the end
    time, the count a pass announces is the one the source computes with
    its double.  It is below the count the pass began with; it is a count n
    of 2 or more only when the remaining time the pass has just read lies in
    [n-1, n) seconds, and a count of 1 only when that time is less than a
    second, before or after the end time: the announced count is anchored
    to the end time, whatever came before. *)
Theorem announced_count_matches_remaining (k : tick) (t : timer) (e n : Z) :
  _end_time t = Some e ->
  exact_seconds (e - now_wake k) ->
  In (EvSpeakCount n) (events_of (iteration k t)) ->
  0 < n ->
  n = new_count_float e (now_wake k) /\
  n < _current_count t /\
  (2 <= n -> (n - 1) * usec <= e - now_wake k < n * usec) /\
  (n = 1 -> - usec < e - now_wake k < usec).
Proof.
  intros He Hex Hin Hpos.
  destruct (iteration_speak k t n Hin) as (e' & He' & Hn & Hlt).
  assert (e' = e) by congruence. subst e'.
  destruct (new_count_bounds e (now_wake k)) as [H2 H1].
  rewrite <- Hn in H2, H1.
  rewrite (new_count_float_exact e (now_wake k) Hex). auto.
Qed.

Lemma announced_count_matches_remaining_witness :
  2 = new_count_float 3000300 1000400 /\
  2 < _current_count (set_started init 3 None 300) /\
  (2 <= 2 -> (2 - 1) * usec <= 3000300 - 1000400 < 2 * usec) /\
  (2 = 1 -> - usec < 3000300 - 1000400 < usec).
Proof.
  apply (announced_count_matches_remaining (tick_at 500 1000400)
           (set_started init 3 None 300) 3000300 2).
  - reflexivity.
  - vm_compute. reflexivity.
  - vm_compute. right. right. left. reflexivity.
  - reflexivity.
Defined.

(** ** Termination under an honest clock *)

(** A pass that goes on to the next test had time remaining and leaves the
    end time as it was. *)
Lemma pass_continue (k : tick) (t : timer) :
  snd (pass k t) = Continue ->
  exists e,
    _end_time t = Some e /\ 0 < e - now_top k /\
    _end_time (timer_of (pass k t)) = Some e.
Proof.
  unfold pass, iteration, update_count, land, lands, loop_test, andb,
    timer_of.
  case_goal; intros H; try discriminate H;
    eexists; repeat split; try reflexivity; try eassumption;
    apply Z.leb_gt; assumption.
Qed.

Lemma passes_left_nonneg (e prev : Z) : 0 <= passes_left e prev.
Proof.
  unfold passes_left. destruct (Z.leb_spec e prev) as [| Hlt]; [lia |].
  pose proof (Z.div_le_mono prev e usec usec_pos ltac:(lia)). lia.
Qed.

(** A pass that sleeps uses up one of the passes that are left. *)
Lemma passes_left_step (e prev a b : Z) :
  prev <= a -> 0 < e - a -> a + sleep_time e a <= b ->
  passes_left e b <= passes_left e prev - 1.
Proof.
  intros Hpa Hrem Hwake.
  rewrite (sleep_due e a Hrem) in Hwake.
  pose proof (Z.div_le_mono prev a usec usec_pos Hpa) as Hq1.
  pose proof (Z.div_le_mono a e usec usec_pos ltac:(lia)) as Hq2.
  unfold passes_left.
  destruct (Z.leb_spec e prev) as [| _]; [lia |].
  destruct (Z.leb_spec e b) as [| Hbe]; [lia |].
  assert (Hnext : usec * (a / usec + 1) <= b) by lia.
  pose proof (Z.div_le_lower_bound b usec (a / usec + 1) usec_pos Hnext).
  lia.
Qed.

Lemma try_body_terminates_honest (c : closing) (sched : list tick) :
  forall (t : timer) (e prev : Z),
    _end_time t = Some e -> honest e prev sched ->
    passes_left e prev < Z.of_nat (length sched) ->
    status_of (try_body sched c t) <> Pending.
Proof.
  induction sched as [| k rest IH]; intros t e prev He Hh Hlen.
  - pose proof (passes_left_nonneg e prev). cbn in Hlen. lia.
  - rewrite try_body_step.
    pose proof (pass_continue k t) as Hc.
    destruct (pass k t) as [[t1 ev] ctl]. cbn [snd timer_of fst] in Hc.
    destruct ctl.
    + destruct (Hc eq_refl) as (e' & He' & Hrem & He1).
      assert (e' = e) by congruence. subst e'.
      cbn [honest] in Hh. destruct Hh as [Hprev Hh].
      destruct (Hh Hrem) as [Hwake Hrest].
      pose proof (passes_left_step e prev (now_top k) (now_wake k)
                    Hprev Hrem Hwake) as Hstep.
      assert (Hlen' : passes_left e (now_wake k) < Z.of_nat (length rest)).
      { cbn [length] in Hlen. lia. }
      specialize (IH t1 e (now_wake k) He1 Hrest Hlen').
      destruct (try_body rest c t1) as [[t2 ev2] s2]. exact IH.
    + pose proof (final_block_not_pending c t1) as Hf.
      destruct (final_block c t1) as [[t2 ev2] s2]. exact Hf.
    + discriminate.
Qed.

(** X3.  A countdown of N seconds ends within N + 2 passes of the loop,
    stopped or not, whatever its callbacks do: on any schedule of at least
    that many passes in which the clock does not run backwards and no sleep
    returns early, [_run_countdown] returns or raises. *)
Theorem run_ends_within_passes (N T0 : Z) (cb : option callback)
    (t : timer) (sched : list tick) (c : closing) :
  0 < N ->
  honest (T0 + N * usec) T0 sched ->
  N + 2 <= Z.of_nat (length sched) ->
  status_of (_run_countdown sched c (set_started t N cb T0)) <> Pending.
Proof.
  intros Hpos Hh Hlen.
  destruct (run_status sched c (set_started t N cb T0)) as [-> _].
  apply (try_body_terminates_honest c sched (set_started t N cb T0)
           (T0 + N * usec) T0); [reflexivity | exact Hh |].
  unfold passes_left.
  destruct (Z.leb_spec (T0 + N * usec) T0) as [Hle | _];
    [unfold usec in Hle; lia |].
  rewrite Z.div_add by discriminate. lia.
Qed.

Lemma run_ends_within_passes_witness :
  status_of (_run_countdown
               [tick_at 40 1000050; tick_at 1000060 2000050;
                tick_at 2000060 2000060; tick_at 2000070 2000070]
               calm (set_started init 2 (Some 1%nat) 0)) <> Pending.
Proof.
  apply (run_ends_within_passes 2 0 (Some 1%nat) init
           [tick_at 40 1000050; tick_at 1000060 2000050;
            tick_at 2000060 2000060; tick_at 2000070 2000070] calm).
  - reflexivity.
  - vm_compute. repeat split; intros; discriminate.
  - vm_compute. discriminate.
Defined.

(** ** What is said and what the observer is told, over a whole run *)

(** One pass: the count does not go up; at most one count is said, the new
    count, and then it is positive and below the old one; at most one call
    is made, with the new count, below the old one; the completion phrase
    is not said. *)
Lemma pass_deliveries (k : tick) (t : timer) :
  _current_count (timer_of (pass k t)) <= _current_count t /\
  (utterances (events_of (pass k t)) = [] \/
   (utterances (events_of (pass k t))
      = [SayCount (_current_count (timer_of (pass k t)))] /\
    0 < _current_count (timer_of (pass k t)) < _current_count t)) /\
  (callbacks (events_of (pass k t)) = [] \/
   (callbacks (events_of (pass k t))
      = [_current_count (timer_of (pass k t))] /\
    _current_count (timer_of (pass k t)) < _current_count t)) /\
  count_of is_final (events_of (pass k t)) = 0%nat.
Proof.
  unfold pass, iteration, update_count, land, lands, loop_test, andb,
    events_of, timer_of, count_of.
  case_goal; order_hyps;
    (split; [lia |]);
    (split; [first [left; reflexivity | right; split; [reflexivity | lia]] |]);
    (split; [first [left; reflexivity | right; split; [reflexivity | lia]] |]);
    reflexivity.
Qed.

(** The final block: the count stays; the completion phrase is said at most
    once and only with the count at 0; the one call it can make is with 0. *)
Lemma final_deliveries (c : closing) (t : timer) :
  _current_count (timer_of (final_block c t)) = _current_count t /\
  (utterances (events_of (final_block c t)) = [] \/
   utterances (events_of (final_block c t)) = [SayComplete]) /\
  (callbacks (events_of (final_block c t)) = [] \/
   (callbacks (events_of (final_block c t)) = [0] /\ _current_count t = 0)) /\
  (count_of is_final (events_of (final_block c t)) <= 1)%nat /\
  (count_of is_final (events_of (final_block c t)) = 1%nat ->
   _current_count t = 0).
Proof.
  unfold final_block, land, lands_final, andb, events_of, timer_of, count_of.
  case_goal; order_hyps;
    (split; [reflexivity |]);
    (split; [first [left; reflexivity | right; reflexivity] |]);
    (split; [first [left; reflexivity | right; split; [reflexivity | lia]] |]);
    (split; [lia |]); intros; try discriminate; lia.
Qed.

Lemma try_body_timer_nil (c : closing) (t : timer) :
  timer_of (try_body [] c t)
  = if loop_test t then t else timer_of (final_block c t).
Proof.
  unfold try_body. cbn [while_loop].
  destruct (loop_test t); [reflexivity |].
  destruct (final_block c t) as [[t2 ev2] s]. reflexivity.
Qed.

Lemma try_body_timer_cons (k : tick) (rest : list tick) (c : closing)
    (t : timer) :
  timer_of (try_body (k :: rest) c t)
  = match snd (pass k t) with
    | Continue => timer_of (try_body rest c (timer_of (pass k t)))
    | Break => timer_of (final_block c (timer_of (pass k t)))
    | Raise => timer_of (pass k t)
    end.
Proof.
  rewrite try_body_step.
  destruct (pass k t) as [[t1 ev] [ | | ]]; cbn [snd timer_of fst].
  - destruct (try_body rest c t1) as [[t2 ev2] s2]. reflexivity.
  - destruct (final_block c t1) as [[t2 ev2] s2]. reflexivity.
  - reflexivity.
Qed.

(** The count a run ends with is not above the one it began with. *)
Lemma final_count_le (sched : list tick) (c : closing) :
  forall t,
    _current_count (timer_of (try_body sched c t)) <= _current_count t.
Proof.
  induction sched as [| k rest IH]; intros t.
  - rewrite try_body_timer_nil. destruct (loop_test t); [lia |].
    destruct (final_deliveries c t) as [-> _]. lia.
  - rewrite try_body_timer_cons.
    destruct (pass_deliveries k t) as [Hle _].
    destruct (snd (pass k t)).
    + specialize (IH (timer_of (pass k t))). lia.
    + destruct (final_deliveries c (timer_of (pass k t))) as [-> _]. lia.
    + lia.
Qed.

Lemma decreasing_weaken (c c' : Z) (l : list Z) :
  c' <= c -> decreasing c' l -> decreasing c l.
Proof.
  destruct l as [| x l]; cbn; [auto |].
  intros ? [? ?]. split; [lia | auto].
Qed.

Lemma decreasing_below (c : Z) (l : list Z) :
  decreasing c l -> Forall (fun x => x < c) l.
Proof.
  revert c. induction l as [| x l IH]; intros c; cbn; [constructor |].
  intros [Hx Hl]. constructor; [exact Hx |].
  specialize (IH x Hl). rewrite Forall_forall in *.
  intros y Hy. specialize (IH y Hy). lia.
Qed.

(** What a run says: counts, each below the one before, then at most the
    completion phrase. *)
Lemma try_body_utterances (sched : list tick) (c : closing) :
  forall t,
  exists counts tl,
    utterances (events_of (try_body sched c t)) = map SayCount counts ++ tl /\
    decreasing (_current_count t) counts /\
    Forall (fun n => 0 < n) counts /\
    (tl = [] \/ tl = [SayComplete]).
Proof.
  induction sched as [| k rest IH]; intros t.
  - rewrite try_body_nil. destruct (loop_test t).
    + exists [], []. cbn. auto.
    + destruct (final_deliveries c t) as (_ & [-> | ->] & _).
      * exists [], []. cbn. auto.
      * exists [], [SayComplete]. cbn. auto.
  - rewrite try_body_cons, utterances_app.
    destruct (pass_deliveries k t) as (Hle & Hu & _ & _).
    assert (Htail : exists counts tl,
      utterances
        match snd (pass k t) with
        | Continue => events_of (try_body rest c (timer_of (pass k t)))
        | Break => events_of (final_block c (timer_of (pass k t)))
        | Raise => []
        end = map SayCount counts ++ tl /\
      decreasing (_current_count (timer_of (pass k t))) counts /\
      Forall (fun n => 0 < n) counts /\
      (tl = [] \/ tl = [SayComplete])).
    { destruct (snd (pass k t)).
      - apply IH.
      - destruct (final_deliveries c (timer_of (pass k t)))
          as (_ & [-> | ->] & _).
        + exists [], []. cbn. auto.
        + exists [], [SayComplete]. cbn. auto.
      - exists [], []. cbn. auto. }
    destruct Htail as (counts & tl & -> & Hdec & Hpos & Htl).
    destruct Hu as [-> | [-> [Hp Hlt]]].
    + exists counts, tl. cbn [app]. repeat split; auto.
      eapply decreasing_weaken; eauto.
    + exists (_current_count (timer_of (pass k t)) :: counts), tl.
      cbn [app map decreasing]. repeat split; auto.
Qed.




(** What a run tells the observer: counts, each below the one before and
    none below the count the run ends with, then at most one call with 0,
    made with the count at 0. *)
Lemma try_body_callbacks (sched : list tick) (c : closing) :
  forall t,
  exists cs tl,
    callbacks (events_of (try_body sched c t)) = cs ++ tl /\
    decreasing (_current_count t) cs /\
    Forall (fun x => _current_count (timer_of (try_body sched c t)) <= x) cs /\
    (tl = [] \/
     (tl = [0] /\ _current_count (timer_of (try_body sched c t)) = 0)).
Proof.
  induction sched as [| k rest IH]; intros t.
  - rewrite try_body_nil, try_body_timer_nil. destruct (loop_test t).
    + exists [], []. cbn. auto.
    + destruct (final_deliveries c t) as (Hc & _ & [-> | [-> H0]] & _).
      * exists [], []. cbn. auto.
      * exists [], [0]. cbn. rewrite Hc. repeat split; auto.
  - rewrite try_body_cons, try_body_timer_cons, callbacks_app.
    destruct (pass_deliveries k t) as (Hle & _ & Hcb & _).
    pose proof (final_count_le rest c (timer_of (pass k t))) as Hfin.
    set (t1 := timer_of (pass k t)) in *.
    set (cf := _current_count
                 match snd (pass k t) with
                 | Continue => timer_of (try_body rest c t1)
                 | Break => timer_of (final_block c t1)
                 | Raise => t1
                 end).
    assert (Htail : cf <= _current_count t1 /\
      exists cs tl,
        callbacks
          match snd (pass k t) with
          | Continue => events_of (try_body rest c t1)
          | Break => events_of (final_block c t1)
          | Raise => []
          end = cs ++ tl /\
        decreasing (_current_count t1) cs /\
        Forall (fun x => cf <= x) cs /\
        (tl = [] \/ (tl = [0] /\ cf = 0))).
    { unfold cf. destruct (snd (pass k t)).
      - split; [exact Hfin | apply IH].
      - destruct (final_deliveries c t1) as (Hc & _ & [-> | [-> H0]] & _);
          rewrite Hc; (split; [lia |]).
        + exists [], []. cbn. auto.
        + exists [], [0]. cbn. repeat split; auto.
      - split; [lia |]. exists [], []. cbn. auto. }
    destruct Htail as (Hcf & cs & tl & -> & Hdec & Hall & Htl).
    destruct Hcb as [-> | [-> Hlt]].
    + exists cs, tl. cbn [app]. repeat split; auto.
      eapply decreasing_weaken; eauto.
    + exists (_current_count t1 :: cs), tl.
      cbn [app decreasing]. repeat split; auto.
Qed.

(** X5.  In every run the values the loop passes to the callback form a
    sequence in which each is smaller than the one before and all are
    smaller than the count the loop began with, followed by at most one
    more call, with 0, from the final block; when that call is made no
    earlier value was negative.  So the observer never sees a count go up,
    and the only value it can see twice is 0. *)
Theorem observer_sequence (sched : list tick) (c : closing) (t : timer) :
  exists cs tl,
    callbacks (events_of (_run_countdown sched c t)) = cs ++ tl /\
    decreasing (current_count t) cs /\
    (tl = [] \/ (tl = [0] /\ Forall (fun x => 0 <= x) cs)).
Proof.
  destruct (run_status sched c t) as [_ ->].
  destruct (try_body_callbacks sched c t) as (cs & tl & E & Hdec & Hall & Htl).
  exists cs, tl. repeat split; auto.
  destruct Htl as [-> | [-> H0]]; [left; reflexivity | right].
  split; [reflexivity |]. rewrite H0 in Hall. exact Hall.
Qed.

(** ** The completion phrase and a stop *)

Lemma has_stop_app (a b : list event) :
  has_stop (a ++ b) = has_stop a || has_stop b.
Proof. apply existsb_app. Qed.

Lemma silent_no_final (tr : list event) :
  silent tr -> count_of is_final tr = 0%nat.
Proof.
  unfold count_of.
  induction 1 as [| e tr He _ IH]; [reflexivity |].
  destruct e; cbn in *; try discriminate; auto.
Qed.

Lemma final_block_stopped (c : closing) (t : timer) :
  at_final_poll c -> has_stop (events_of (final_block c t)) = true ->
  count_of is_final (events_of (final_block c t)) = 0%nat.
Proof.
  unfold final_block, land, lands_final, andb, events_of, count_of,
    at_final_poll.
  case_goal; intros [H1 H2] H; try reflexivity; try discriminate H;
    congruence.
Qed.

Lemma try_body_final (sched : list tick) (c : closing) :
  forall t,
    (count_of is_final (events_of (try_body sched c t)) <= 1)%nat /\
    (at_final_poll c -> has_stop (events_of (try_body sched c t)) = true ->
     count_of is_final (events_of (try_body sched c t)) = 0%nat) /\
    (count_of is_final (events_of (try_body sched c t)) = 1%nat ->
     _current_count (timer_of (try_body sched c t)) = 0).
Proof.
  induction sched as [| k rest IH]; intros t.
  - rewrite try_body_nil, try_body_timer_nil. destruct (loop_test t).
    + cbn. repeat split; intros; try lia; discriminate.
    + destruct (final_deliveries c t) as (Hc & _ & _ & H1 & H0).
      rewrite Hc. repeat split; auto.
      apply final_block_stopped.
  - rewrite try_body_cons, try_body_timer_cons, count_of_app, has_stop_app.
    destruct (pass_deliveries k t) as (_ & _ & _ & ->).
    destruct (pass_after_stop k t) as [_ Hstop].
    cbn [Nat.add].
    destruct (snd (pass k t)).
    + destruct (IH (timer_of (pass k t))) as (I1 & I2 & I3).
      repeat split; auto.
      intros Hc Hs.
      destruct (has_stop (events_of (pass k t))) eqn:Hp; [| auto].
      destruct (Hstop eq_refl) as (Hoff & _).
      apply silent_no_final, stopped_try_body_silent. exact Hoff.
    + destruct (final_deliveries c (timer_of (pass k t)))
        as (Hc & _ & _ & H1 & H0).
      rewrite Hc. repeat split; auto.
      intros Hp Hs.
      destruct (has_stop (events_of (pass k t))) eqn:Hpass.
      * destruct (Hstop eq_refl) as (Hoff & _).
        apply silent_no_final, final_after_stop. exact Hoff.
      * apply final_block_stopped; assumption.
    + cbn. repeat split; intros; try lia; discriminate.
Qed.

(** X6.  The completion phrase is dispatched at most once in a run, only
    with the count at 0, and not at all in a run in which a stop has written
    the flag before the final block read it. *)
Theorem completion_needs_running (sched : list tick) (c : closing)
    (t : timer) :
  (count_of is_final (events_of (_run_countdown sched c t)) <= 1)%nat /\
  (at_final_poll c ->
   has_stop (events_of (_run_countdown sched c t)) = true ->
   count_of is_final (events_of (_run_countdown sched c t)) = 0%nat) /\
  (count_of is_final (events_of (_run_countdown sched c t)) = 1%nat ->
   current_count (timer_of (_run_countdown sched c t)) = 0).
Proof.
  destruct (run_status sched c t) as [_ ->].
  unfold current_count. rewrite run_timer.
  apply try_body_final.
Qed.

Lemma completion_needs_running_witness :
  count_of is_final (events_of stop_in_sleep_run) = 0%nat /\
  current_count (timer_of two_second_run) = 0.
Proof.
  split.
  - destruct (completion_needs_running
                [{| tk_stop := Some InSleep; now_top := 0;
                    now_wake := 1000050; speak_ok := true;
                    callback_ok := true |}]
                calm (set_started init 3 (Some 1%nat) 0)) as (_ & H & _).
    apply H; [split; discriminate | reflexivity].
  - destruct (completion_needs_running
                [tick_at 40 1000050; tick_at 1000060 2000050;
                 tick_at 2000060 2000060]
                calm (set_started init 2 (Some 1%nat) 0)) as (_ & _ & H).
    apply H. reflexivity.
Defined.

(** X7.  A run that [start] began, that nothing disturbs, whose wake-ups
    are all read less than a second after the end time, and that returns,
    dispatches the completion phrase exactly once and calls the callback
    with 0 exactly once (if there is a callback), and ends with the count at
    0 and the engine not running - whether or not counts were skipped on the
    way. *)
Theorem completion_once_from_start (t : timer) (seconds : Z)
    (cb : option callback) (si : bool) (T0 : Z) (t0 : timer)
    (ev0 : list event) (sched : list tick) :
  start t seconds cb si T0 = (t0, ev0, None) ->
  Forall quiet sched ->
  Forall (wakes_in_time (T0 + seconds * usec)) sched ->
  status_of (_run_countdown sched calm t0) = Returned ->
  count_of is_final (events_of (_run_countdown sched calm t0)) = 1%nat /\
  count_of is_callback0 (events_of (_run_countdown sched calm t0))
    = match cb with Some _ => 1%nat | None => 0%nat end /\
  current_count (timer_of (_run_countdown sched calm t0)) = 0 /\
  is_running (timer_of (_run_countdown sched calm t0)) = false.
Proof.
  intros Hstart Hq Hw Hret.
  unfold start in Hstart.
  destruct (_running t); [discriminate |].
  destruct (Z.leb_spec seconds 0) as [| Hpos]; [discriminate |].
  destruct (end_time_overflows seconds T0); [discriminate |].
  inversion Hstart; subst t0 ev0; clear Hstart.
  assert (Hoff : is_running
                   (timer_of (_run_countdown sched calm
                                (set_started t seconds cb T0))) = false)
    by (apply run_ended_not_running; rewrite Hret; discriminate).
  destruct (run_status sched calm (set_started t seconds cb T0)) as [Es Ee].
  rewrite Es in Hret. unfold current_count. rewrite Ee, run_timer.
  destruct (completion_once_when_wakes_in_time sched
              (set_started t seconds cb T0) (T0 + seconds * usec)
              eq_refl Hpos eq_refl Hq Hw Hret) as (I1 & I2 & I3).
  repeat split; assumption.
Qed.

Lemma completion_once_from_start_witness :
  count_of is_final (events_of jitter_run) = 1%nat /\
  count_of is_callback0 (events_of jitter_run) = 1%nat /\
  current_count (timer_of jitter_run) = 0 /\
  is_running (timer_of jitter_run) = false.
Proof.
  apply (completion_once_from_start init 3 (Some 1%nat) true 300
           (set_started init 3 (Some 1%nat) 300)
           [EvSpeakCount 3; EvSpawnLoop] jitter_schedule).
  - reflexivity.
  - repeat constructor.
  - unfold jitter_schedule, wakes_in_time.
    repeat constructor; intros _; vm_compute; discriminate.
  - reflexivity.
Defined.

(** ** The voice the engine is given *)

Lemma prefix_spec (a b : string) :
  prefix a b = true <-> exists post, b = (a ++ post)%string.
Proof.
  revert b. induction a as [| x a IH]; intros b.
  - split; [intros _; exists b; reflexivity |].
    intros _. destruct b; reflexivity.
  - destruct b as [| y b]; cbn.
    + split; [discriminate | intros [post H]; discriminate].
    + destruct (ascii_dec x y) as [-> | Hne].
      * rewrite IH. split; intros [post H]; exists post; congruence.
      * split; [discriminate | intros [post H]; congruence].
Qed.

(** [contains] is the substring test. *)
Lemma contains_spec (needle s : string) :
  contains needle s = true
  <-> exists pre post, s = (pre ++ needle ++ post)%string.
Proof.
  induction s as [| c s IH]; cbn [contains]; rewrite orb_true_iff.
  - split.
    + intros [H | H]; [| discriminate].
      apply prefix_spec in H as [post H]. exists EmptyString, post. exact H.
    + intros (pre & post & H). left. apply prefix_spec.
      destruct pre; [exists post; exact H | discriminate].
  - rewrite IH, prefix_spec. split.
    + intros [[post H] | (pre & post & H)].
      * exists EmptyString, post. exact H.
      * exists (String c pre), post. cbn. congruence.
    + intros (pre & post & H). destruct pre as [| x pre]; cbn in H.
      * left. exists post. exact H.
      * right. exists pre, post. congruence.
Qed.

(** The first element a filter keeps. *)
Lemma filter_first {A : Type} (p : A -> bool) (l : list A) (x : A)
    (rest : list A) :
  filter p l = x :: rest ->
  p x = true /\
  exists pre post,
    l = pre ++ x :: post /\ Forall (fun y => p y = false) pre.
Proof.
  induction l as [| y l IH]; cbn; [discriminate |].
  destruct (p y) eqn:Hy; intros H.
  - inversion H; subst. split; [exact Hy |].
    exists [], l. split; [reflexivity | constructor].
  - destruct (IH H) as (Hx & pre & post & -> & Hpre).
    split; [exact Hx |].
    exists (y :: pre), post. split; [reflexivity | constructor; assumption].
Qed.

Lemma filter_none {A : Type} (p : A -> bool) (l : list A) :
  filter p l = [] -> Forall (fun y => p y = false) l.
Proof.
  induction l as [| y l IH]; cbn; [constructor |].
  destruct (p y) eqn:Hy; [discriminate |].
  intros H. constructor; auto.
Qed.

(** X8.  When the driver lists at least one voice, the engine is given
    exactly one voice, one of those listed, before its rate (150) and volume
    (1.0) are set: the first listed voice whose lower-cased name has
    "female" as a substring, and the first listed voice when no name has.
    When the driver lists none, no voice is set. *)
Theorem voice_choice (voices : list Voice.t)
    (calls : list (string * value)) :
  _initialize_tts (Some voices) = Some calls ->
  let tail := [("rate"%string, VInt 150);
               ("volume"%string, VFloat (QArith_base.Qmake 1 1))] in
  (voices = [] -> calls = tail) /\
  (voices <> [] ->
   exists v pre post,
     calls = ("voice"%string, VStr (Voice.id v)) :: tail /\
     voices = pre ++ v :: post /\
     Forall (fun w => is_female w = false) pre /\
     ((exists a b,
         lower (Voice.name v) = (a ++ "female" ++ b)%string)
      \/ (pre = [] /\ Forall (fun w => is_female w = false) voices))).
Proof.
  intros H tail. cbn in H. inversion H as [Hcalls]; clear H.
  split.
  - intros ->. reflexivity.
  - intros Hne. destruct voices as [| first rest]; [congruence |].
    destruct (filter is_female (first :: rest)) as [| f fs] eqn:Hf.
    + exists first, [], rest. repeat split; auto.
      right. split; [reflexivity |]. apply filter_none. exact Hf.
    + destruct (filter_first is_female (first :: rest) f fs Hf)
        as (Hfem & pre & post & Hsplit & Hpre).
      exists f, pre, post. repeat split; auto.
      left. apply contains_spec. exact Hfem.
Qed.

Lemma voice_choice_witness :
  _initialize_tts (Some sample_voices)
    = Some [("voice"%string, VStr "en-GB-f");
            ("rate"%string, VInt 150);
            ("volume"%string, VFloat (QArith_base.Qmake 1 1))] /\
  (sample_voices <> [] ->
   exists v pre post,
     [("voice"%string, VStr "en-GB-f"); ("rate"%string, VInt 150);
      ("volume"%string, VFloat (QArith_base.Qmake 1 1))]
       = ("voice"%string, VStr (Voice.id v))
           :: [("rate"%string, VInt 150);
               ("volume"%string, VFloat (QArith_base.Qmake 1 1))] /\
     sample_voices = pre ++ v :: post /\
     Forall (fun w => is_female w = false) pre /\
     ((exists a b,
         lower (Voice.name v) = (a ++ "female" ++ b)%string)
      \/ (pre = [] /\ Forall (fun w => is_female w = false) sample_voices))).
Proof.
  split; [reflexivity |].
  apply (voice_choice sample_voices
           [("voice"%string, VStr "en-GB-f"); ("rate"%string, VInt 150);
            ("volume"%string, VFloat (QArith_base.Qmake 1 1))]).
  reflexivity.
Defined.

(** ** stop and the context manager *)

(** X9.  Called from outside the loop's thread, [stop] never raises, clears
    the flag and the thread handle, keeps the count, is idempotent, and
    changes nothing on an engine that was never started; a [start] after it,
    with a positive duration whose end time [datetime] can hold, does what
    it does on a fresh engine.  Called on the loop's own thread while the
    handle is set - from the callback of a run that [start] began - it
    clears the flag, then raises RuntimeError at the join and leaves the
    handle set.  Leaving a with-block from outside stops the engine and
    clears its handle while the body's result, or its exception, goes
    through unchanged. *)
Theorem stop_lifecycle (t : timer) :
  (snd (stop Outside t) = None /\
   is_running (fst (stop Outside t)) = false /\
   _count_thread (fst (stop Outside t)) = false /\
   current_count (fst (stop Outside t)) = current_count t /\
   stop Outside (fst (stop Outside t)) = stop Outside t /\
   stop Outside init = (init, None)) /\
  (forall seconds cb si now,
     0 < seconds -> representable now seconds ->
     start (fst (stop Outside t)) seconds cb si now
       = start init seconds cb si now) /\
  (_count_thread t = true ->
   stop OnLoopThread t = (stop_write t, Some RuntimeError) /\
   is_running (fst (stop OnLoopThread t)) = false /\
   _count_thread (fst (stop OnLoopThread t)) = true) /\
  (forall seconds cb si now,
     _running t = false -> 0 < seconds -> representable now seconds ->
     snd (stop OnLoopThread (timer_of (start t seconds cb si now)))
       = Some RuntimeError) /\
  (forall (A : Type) (body : timer -> timer * (error + A)),
     is_running (fst (with_timer Outside t body)) = false /\
     _count_thread (fst (with_timer Outside t body)) = false /\
     current_count (fst (with_timer Outside t body))
       = current_count (fst (body t)) /\
     snd (with_timer Outside t body) = snd (body t)).
Proof.
  split; [| split; [| split; [| split]]].
  - unfold stop. cbn [_count_thread stop_write].
    destruct (_count_thread t); repeat split; reflexivity.
  - intros seconds cb si now Hpos Hrep.
    rewrite (in_range_start init seconds cb si now eq_refl Hpos Hrep).
    rewrite (in_range_start (fst (stop Outside t)) seconds cb si now);
      [reflexivity | | exact Hpos | exact Hrep].
    unfold stop. cbn [_count_thread stop_write].
    destruct (_count_thread t); reflexivity.
  - intros Hth. unfold stop. cbn [_count_thread stop_write].
    rewrite Hth. repeat split. exact Hth.
  - intros seconds cb si now Hrun Hpos Hrep.
    rewrite (in_range_start t seconds cb si now Hrun Hpos Hrep).
    reflexivity.
  - intros A body. unfold with_timer, __enter__, __exit__, stop.
    destruct (body t) as [t1 r]. cbn [_count_thread stop_write].
    destruct (_count_thread t1); repeat split; reflexivity.
Qed.

Lemma stop_lifecycle_witness :
  start (fst (stop Outside (timer_of stop_in_sleep_run))) 5 None true 9000000
    = start init 5 None true 9000000 /\
  stop OnLoopThread (set_started init 3 (Some 1%nat) 0)
    = (stop_write (set_started init 3 (Some 1%nat) 0), Some RuntimeError) /\
  snd (stop OnLoopThread (timer_of (start init 3 (Some 1%nat) true 0)))
    = Some RuntimeError.
Proof.
  destruct (stop_lifecycle (timer_of stop_in_sleep_run))
    as (_ & Hstart & _).
  destruct (stop_lifecycle (set_started init 3 (Some 1%nat) 0))
    as (_ & _ & Hloop & _).
  destruct (stop_lifecycle init) as (_ & _ & _ & Hcb & _).
  split; [| split].
  - apply (Hstart 5 None true 9000000); [reflexivity | split; discriminate].
  - apply Hloop. reflexivity.
  - apply (Hcb 3 (Some 1%nat) true 0);
      [reflexivity | reflexivity | split; discriminate].
Defined.

(** ** main *)

Lemma chosen_duration_pos (arg : option (option Z)) :
  0 < fst (chosen_duration arg).
Proof.
  destruct arg as [[n |] |]; cbn; try reflexivity.
  destruct (Z.leb_spec n 0); cbn; [reflexivity | assumption].
Qed.

(** The [start] in [main]: refused by neither guard, and raising exactly
    when the end time is out of range. *)
Lemma main_start (arg : option (option Z)) (now : Z) :
  start init (fst (chosen_duration arg)) (Some countdown_callback) true now
  = if end_time_overflows (fst (chosen_duration arg)) now then
      (set_overflowed init (fst (chosen_duration arg))
         (Some countdown_callback) now, [], Some OverflowError)
    else
      (set_started init (fst (chosen_duration arg))
         (Some countdown_callback) now,
       [EvSpeakCount (fst (chosen_duration arg)); EvSpawnLoop], None).
Proof.
  pose proof (chosen_duration_pos arg) as Hpos.
  unfold start. cbn [_running init].
  destruct (Z.leb_spec (fst (chosen_duration arg)) 0); [lia | reflexivity].
Qed.

(** X10.  Whatever the command line, [main] asks for a countdown of a
    positive number of seconds: the argument when [int] reads it as a
    positive integer, and 10 - after saying the duration is invalid - when it
    reads it as zero or negative or cannot read it, and 10 when there is no
    argument.  So the [start] in [main] is refused by neither of its guards;
    it raises only OverflowError, exactly when the end time is past what
    [datetime] can hold, and then leaves the engine flagged as running with
    no loop started. *)
Theorem main_duration (arg : option (option Z)) (now : Z) :
  0 < fst (chosen_duration arg) /\
  (forall n, arg = Some (Some n) -> 0 < n -> chosen_duration arg = (n, [])) /\
  (forall n, arg = Some (Some n) -> n <= 0 ->
             chosen_duration arg = (10, [OutInvalidDuration])) /\
  (arg = Some None -> chosen_duration arg = (10, [OutInvalidDuration])) /\
  (arg = None -> chosen_duration arg = (10, [])) /\
  (end_time_overflows (fst (chosen_duration arg)) now = false ->
   snd (start init (fst (chosen_duration arg)) (Some countdown_callback)
          true now) = None) /\
  (end_time_overflows (fst (chosen_duration arg)) now = true ->
   snd (start init (fst (chosen_duration arg)) (Some countdown_callback)
          true now) = Some OverflowError /\
   is_running
     (timer_of (start init (fst (chosen_duration arg))
                  (Some countdown_callback) true now)) = true /\
   events_of (start init (fst (chosen_duration arg))
                (Some countdown_callback) true now) = []).
Proof.
  split; [apply chosen_duration_pos |].
  split; [| split; [| split; [| split; [| split]]]].
  - intros n -> Hn. cbn. destruct (Z.leb_spec n 0); [lia | reflexivity].
  - intros n -> Hn. cbn. destruct (Z.leb_spec n 0); [reflexivity | lia].
  - intros ->. reflexivity.
  - intros ->. reflexivity.
  - intros Hov. rewrite main_start, Hov. reflexivity.
  - intros Hov. rewrite main_start, Hov. repeat split; reflexivity.
Qed.

Lemma main_duration_witness :
  chosen_duration (Some (Some 25)) = (25, []) /\
  chosen_duration (Some (Some (-3))) = (10, [OutInvalidDuration]) /\
  chosen_duration (Some None) = (10, [OutInvalidDuration]) /\
  chosen_duration None = (10, []) /\
  snd (start init 25 (Some countdown_callback) true 0) = None /\
  snd (start init 1000000000000 (Some countdown_callback) true 0)
    = Some OverflowError.
Proof.
  destruct (main_duration (Some (Some 25)) 0) as (_ & H1 & _ & _ & _ & H5 & _).
  destruct (main_duration (Some (Some (-3))) 0) as (_ & _ & H2 & _).
  destruct (main_duration (Some None) 0) as (_ & _ & _ & H3 & _).
  destruct (main_duration None 0) as (_ & _ & _ & _ & H4 & _).
  destruct (main_duration (Some (Some 1000000000000)) 0)
    as (_ & _ & _ & _ & _ & _ & H6).
  split; [apply (H1 25); reflexivity |].
  split; [apply (H2 (-3)); [reflexivity | discriminate] |].
  split; [apply H3; reflexivity |].
  split; [apply H4; reflexivity |].
  split; [apply H5; reflexivity |].
  apply H6. reflexivity.
Defined.

(** X11.  When no KeyboardInterrupt is raised outside its wait, [main] exits
    with status 1 exactly when the speech engine cannot be set up or the end
    time is past what [datetime] can hold; it then prints its error line and
    never the completion line.  Otherwise it exits with status 0 and the
    completion line is the last thing it prints, also when the user
    interrupted the wait, which is exactly when it prints the interruption
    line.  Either way it has announced a countdown of a positive number of
    seconds.  A KeyboardInterrupt raised anywhere else is not caught: [main]
    gives no exit status, having printed the first lines of the above. *)
Theorem main_exit_status (arg : option (option Z))
    (driver : option (list Voice.t)) (now : Z) (p : polling) :
  (driver = None
   \/ end_time_overflows (fst (chosen_duration arg)) now = true ->
   fst (main None arg driver now p) = Some 1 /\
   In OutError (snd (main None arg driver now p)) /\
   ~ In OutComplete (snd (main None arg driver now p))) /\
  (driver <> None ->
   end_time_overflows (fst (chosen_duration arg)) now = false ->
   fst (main None arg driver now p) = Some 0 /\
   (exists pre, snd (main None arg driver now p) = pre ++ [OutComplete]) /\
   (In OutInterrupted (snd (main None arg driver now p))
    <-> p = KeyboardInterrupt)) /\
  (forall n,
     fst (main (Some n) arg driver now p) = None /\
     snd (main (Some n) arg driver now p)
       = firstn n (snd (main None arg driver now p))) /\
  exists d, 0 < d /\ In (OutStarting d) (snd (main None arg driver now p)).
Proof.
  pose proof (chosen_duration_pos arg) as Hpos.
  pose proof (main_start arg now) as Hstart.
  unfold main, main_uninterrupted, CountdownTimer, __enter__.
  assert (Hsaid : ~ In OutComplete (snd (chosen_duration arg)) /\
                  ~ In OutInterrupted (snd (chosen_duration arg)) /\
                  ~ In OutError (snd (chosen_duration arg))).
  { destruct arg as [[n |] |]; cbn; try (destruct (n <=? 0); cbn);
      intuition congruence. }
  destruct (chosen_duration arg) as [duration said]. cbn [fst snd] in *.
  destruct Hsaid as (Hnc & Hni & Hne).
  destruct driver as [voices |]; cbn [_initialize_tts].
  - rewrite Hstart. clear Hstart.
    destruct (end_time_overflows duration now) eqn:Hov.
    + split; [| split; [| split]].
      * intros _. cbn [fst snd]. split; [reflexivity |].
        rewrite !in_app_iff; cbn. intuition congruence.
      * intros _ H. discriminate H.
      * intros n. split; reflexivity.
      * exists duration. split; [exact Hpos |].
        cbn [snd]. rewrite !in_app_iff; cbn; auto 6.
    + split; [| split; [| split]].
      * intros [H | H]; discriminate H.
      * intros _ _. destruct p; cbn [fst snd];
          (split; [reflexivity |]); (split; [|]);
          try (rewrite !in_app_iff; cbn; intuition congruence).
        -- eexists. reflexivity.
        -- exists (([OutBanner] ++ said ++ [OutStarting duration])
                     ++ [OutInterrupted]).
           rewrite <- !app_assoc. reflexivity.
      * intros n. destruct p; split; reflexivity.
      * exists duration. split; [exact Hpos |].
        destruct p; cbn [snd]; rewrite !in_app_iff; cbn; auto 6.
  - split; [| split; [| split]].
    + intros _. cbn [fst snd]. split; [reflexivity |].
      rewrite !in_app_iff; cbn. intuition congruence.
    + intros H. congruence.
    + intros n. split; reflexivity.
    + exists duration. split; [exact Hpos |].
      cbn [snd]. rewrite !in_app_iff; cbn; auto 6.
Qed.

Lemma main_exit_status_witness :
  main None (Some (Some 3)) (Some sample_voices) 0 KeyboardInterrupt
    = (Some 0, [OutBanner; OutStarting 3; OutInterrupted; OutComplete]) /\
  main None (Some (Some 1000000000000)) (Some sample_voices) 0 RunEnded
    = (Some 1, [OutBanner; OutStarting 1000000000000; OutError]) /\
  fst (main None None None 0 RunEnded) = Some 1 /\
  fst (main None (Some (Some 3)) (Some sample_voices) 0 RunEnded) = Some 0.
Proof.
  destruct (main_exit_status None None 0 RunEnded) as (H1 & _).
  destruct (main_exit_status (Some (Some 3)) (Some sample_voices) 0 RunEnded)
    as (_ & H2 & _).
  split; [reflexivity |]. split; [reflexivity |]. split.
  - apply H1. left. reflexivity.
  - apply H2; [discriminate | reflexivity].
Defined.

(** ** start_immediately *)

(** X12.  [start_immediately] decides one thing only: whether [start]
    dispatches the announcement of the initial count.  For a positive
    duration whose end time [datetime] can hold, with it false the engine is
    left exactly as with it true, running and with the loop's thread
    started, and the initial count is then never handed to a speech thread
    in the whole run, by [start] or by the loop. *)
Theorem start_immediately_only_announces (t : timer) (seconds : Z)
    (cb : option callback) (now : Z) (sched : list tick) (c : closing) :
  _running t = false -> 0 < seconds -> representable now seconds ->
  exists t0,
    start t seconds cb true now
      = (t0, [EvSpeakCount seconds; EvSpawnLoop], None) /\
    start t seconds cb false now = (t0, [EvSpawnLoop], None) /\
    is_running t0 = true /\
    ~ In (SayCount seconds)
        (utterances ([EvSpawnLoop]
                       ++ events_of (_run_countdown sched c t0))).
Proof.
  intros Hrun Hpos Hrep. exists (set_started t seconds cb now).
  rewrite !(in_range_start t seconds cb _ now Hrun Hpos Hrep).
  repeat split.
  destruct (run_status sched c (set_started t seconds cb now)) as [_ ->].
  destruct (try_body_utterances sched c (set_started t seconds cb now))
    as (counts & tl & E & Hdec & _ & Htl).
  cbn [app utterances flat_map spoken]. fold (utterances
    (events_of (try_body sched c (set_started t seconds cb now)))).
  rewrite E. intros Hin.
  apply in_app_or in Hin as [Hin | Hin].
  - apply in_map_iff in Hin as (x & Hx & Hin).
    inversion Hx; subst x.
    apply decreasing_below in Hdec. rewrite Forall_forall in Hdec.
    specialize (Hdec seconds Hin). cbn in Hdec. lia.
  - destruct Htl as [-> | ->]; cbn in Hin;
      [contradiction | destruct Hin as [Hin | []]; discriminate Hin].
Qed.

Lemma start_immediately_only_announces_witness :
  exists t0,
    start init 3 (Some 1%nat) true 300
      = (t0, [EvSpeakCount 3; EvSpawnLoop], None) /\
    start init 3 (Some 1%nat) false 300 = (t0, [EvSpawnLoop], None) /\
    is_running t0 = true /\
    ~ In (SayCount 3)
        (utterances ([EvSpawnLoop]
                       ++ events_of (_run_countdown jitter_schedule calm t0))).
Proof.
  apply (start_immediately_only_announces init 3 (Some 1%nat) 300
           jitter_schedule calm);
    [reflexivity | reflexivity | split; discriminate].
Defined.

(** ** Completion is not early *)

(** A recount that is not positive was read a second or more after the end
    time. *)
Lemma new_count_nonpos (e now : Z) :
  new_count e now <= 0 -> e + usec <= now.
Proof.
  unfold new_count. intros H.
  destruct (Z.le_gt_cases (e + usec) now) as [| Hlt]; [assumption |].
  exfalso.
  destruct (Z.le_gt_cases 0 (e - now)) as [Hr | Hr].
  - pose proof (Z.quot_pos (e - now) usec Hr usec_pos). lia.
  - pose proof (Z.quot_opp_l (- (e - now)) usec ltac:(discriminate)) as Ho.
    rewrite Z.opp_involutive in Ho.
    rewrite (Z.quot_small (- (e - now)) usec) in Ho by lia.
    lia.
Qed.

Lemma pass_keeps_end (k : tick) (t : timer) :
  _end_time (timer_of (pass k t)) = _end_time t.
Proof.
  unfold pass, iteration, update_count, land, lands, loop_test, andb,
    timer_of.
  case_goal; congruence.
Qed.

(** A pass brings a positive count to 0 or below only on a reading of the
    clock at or past the end time. *)
Lemma pass_count_nonpos (k : tick) (t : timer) (e : Z) :
  0 < _current_count t -> _end_time t = Some e ->
  _current_count (timer_of (pass k t)) <= 0 ->
  e <= now_top k \/ e + usec <= now_wake k.
Proof.
  intros Hc He. revert Hc.
  unfold pass, iteration, update_count, land, lands, loop_test, andb,
    timer_of.
  case_goal; order_hyps; intros Hc H; try lia;
    match goal with
    | H1 : _end_time t = Some ?z |- _ =>
        assert (z = e) by congruence; subst z
    end;
    first [left; lia | right; apply new_count_nonpos; exact H].
Qed.

Lemma try_body_count_nonpos (sched : list tick) (c : closing) :
  forall (t : timer) (e : Z),
    0 < _current_count t -> _end_time t = Some e ->
    _current_count (timer_of (try_body sched c t)) <= 0 ->
    exists k, In k sched /\ (e <= now_top k \/ e + usec <= now_wake k).
Proof.
  induction sched as [| k rest IH]; intros t e Hc He Hz.
  - rewrite try_body_timer_nil in Hz. destruct (loop_test t); [lia |].
    destruct (final_deliveries c t) as [E _]. lia.
  - rewrite try_body_timer_cons in Hz.
    destruct (Z.le_gt_cases (_current_count (timer_of (pass k t))) 0)
      as [Hz1 | Hpos1].
    + exists k. split; [left; reflexivity |].
      exact (pass_count_nonpos k t e Hc He Hz1).
    + pose proof (pass_keeps_end k t) as Hk. rewrite He in Hk.
      destruct (snd (pass k t)).
      * destruct (IH (timer_of (pass k t)) e Hpos1 Hk Hz) as (k' & Hin & Hr).
        exists k'. split; [right; exact Hin | exact Hr].
      * destruct (final_deliveries c (timer_of (pass k t))) as [E _]. lia.
      * lia.
Qed.

(** X13.  Completion is never announced early: in a run that begins with a
    positive count, the completion phrase is dispatched only if some pass
    has read the clock at or past the end time (at the top of the pass), or
    a second or more past it (on waking). *)
Theorem completion_not_early (sched : list tick) (c : closing) (t : timer)
    (e : Z) :
  0 < current_count t -> _end_time t = Some e ->
  count_of is_final (events_of (_run_countdown sched c t)) = 1%nat ->
  exists k, In k sched /\ (e <= now_top k \/ e + usec <= now_wake k).
Proof.
  intros Hc He Hfin.
  destruct (run_status sched c t) as [_ Ee]. rewrite Ee in Hfin.
  destruct (try_body_final sched c t) as (_ & _ & H0).
  apply (try_body_count_nonpos sched c t e Hc He).
  rewrite (H0 Hfin). lia.
Qed.

Lemma completion_not_early_witness :
  exists k,
    In k jitter_schedule /\
    (3000300 <= now_top k \/ 3000300 + usec <= now_wake k).
Proof.
  apply (completion_not_early jitter_schedule calm
           (set_started init 3 (Some 1%nat) 300) 3000300); reflexivity.
Defined.
